(** * EEPROM driver for AT25320A / M95040-W over SPI: a shallow embedding

    The driver (eeprom.c, EEPROM.h) talks to the chip through four HAL
    calls: a polled full-duplex SPI exchange, two pad operations that drive
    the chip-select line, and a microsecond delay.  The embedding threads a
    [World] through every driver function: the state of everything behind
    the HAL, the caller's RAM (for the range buffers), and a log of the HAL
    calls in the order the driver made them.

    Integers are [Z].  A parameter stands for a value of its C type
    ([uint16_t addr] in [0, 2^16), [uint8_t data] in [0, 2^8), [uint32_t
    length] in [0, 2^32)); with such arguments no expression of the driver
    leaves the range of its type, except that [EEPROM_exchangeSpi] returns
    the frame handed back by the HAL as [uint8_t], which is written out.  A
    pointer [uint8_t *data] is an address into [ram], and [data[i]] is the
    byte at [data + i].  The HAL calls act on the device only: the driver's
    own loads and stores are the only accesses to [ram]. *)

From Stdlib Require Import ZArith List Bool Lia.
Import ListNotations.
Open Scope Z_scope.

(* ------------------------------------------------------------------ *)
(** ** EEPROM.h *)

Definition EEPROM_STATUS_BIT_RDY  : Z := 0x01.
Definition EEPROM_STATUS_BIT_WEN  : Z := 0x02.
Definition EEPROM_STATUS_BIT_BP   : Z := 0x0C.
Definition EEPROM_STATUS_BIT_WPEN : Z := 0x80.

Inductive EEPROM_BlockProtection : Type :=
| BlockProtection_None
| BlockProtection_Quarter
| BlockProtection_Half
| BlockProtection_WholeMemory.

(** The enumerators' values. *)
Definition BlockProtection_value (bp : EEPROM_BlockProtection) : Z :=
  match bp with
  | BlockProtection_None => 0
  | BlockProtection_Quarter => 1
  | BlockProtection_Half => 2
  | BlockProtection_WholeMemory => 3
  end.

Definition BlockProtection_of_value (v : Z) : option EEPROM_BlockProtection :=
  if v =? 0 then Some BlockProtection_None
  else if v =? 1 then Some BlockProtection_Quarter
  else if v =? 2 then Some BlockProtection_Half
  else if v =? 3 then Some BlockProtection_WholeMemory
  else None.

(** [EEPROM_StatusRegister]: the view [SR.B] of the union, one field per
    bit-field, in declaration order. *)
Record EEPROM_StatusRegister : Type := mkSR {
  WPEN   : Z;   (* :1 *)
  UNUSED : Z;   (* :3 *)
  BP     : Z;   (* :2 *)
  WEN    : Z;   (* :1 *)
  RDY    : Z    (* :1 *)
}.

(** Where a compiler puts consecutive bit-fields of a [uint8_t] unit is its
    own choice.  The library targets SPC5 (Power Architecture, big-endian),
    whose ABI allocates from the most significant bit. *)
Inductive bitfield_order : Type := MsbFirst | LsbFirst.

(** Widths of the members of [SR.B], as declared. *)
Definition SR_widths : list Z := [1; 3; 2; 1; 1].

(** Shift of the [k]-th declared bit-field inside the 8-bit unit. *)
Definition bitfield_shift (o : bitfield_order) (widths : list Z) (k : nat) : Z :=
  let before := fold_right Z.add 0 (firstn k widths) in
  match o with
  | LsbFirst => before
  | MsbFirst => 8 - before - nth k widths 0
  end.

Definition bitfield_get (o : bitfield_order) (widths : list Z) (k : nat) (r : Z) : Z :=
  Z.land (Z.shiftr r (bitfield_shift o widths k)) (Z.ones (nth k widths 0)).

(** Writing [SR.R] and reading [SR.B]. *)
Definition SR_of_R (o : bitfield_order) (r : Z) : EEPROM_StatusRegister :=
  {| WPEN   := bitfield_get o SR_widths 0 r;
     UNUSED := bitfield_get o SR_widths 1 r;
     BP     := bitfield_get o SR_widths 2 r;
     WEN    := bitfield_get o SR_widths 3 r;
     RDY    := bitfield_get o SR_widths 4 r |}.

(** Reading a field through its mask [EEPROM_STATUS_BIT_*]: the masked
    bits, moved down to bit 0. *)
Definition mask_get (mask shift r : Z) : Z := Z.shiftr (Z.land r mask) shift.

Definition status_RDY  (r : Z) : Z := mask_get EEPROM_STATUS_BIT_RDY 0 r.
Definition status_WEN  (r : Z) : Z := mask_get EEPROM_STATUS_BIT_WEN 1 r.
Definition status_BP   (r : Z) : Z := mask_get EEPROM_STATUS_BIT_BP 2 r.
Definition status_WPEN (r : Z) : Z := mask_get EEPROM_STATUS_BIT_WPEN 7 r.

(** The bytes [0 .. 255]. *)
Definition all_bytes : list Z := map Z.of_nat (seq 0 256).

(** Reading the fields through the masks, and through [SR.B] on the
    target, is reading bits 0, 1, 2-3 and 7. *)
Definition layout_ok (r : Z) : bool :=
  (status_RDY r =? Z.b2z (Z.testbit r 0)) &&
  (status_WEN r =? Z.b2z (Z.testbit r 1)) &&
  (status_BP r =? Z.b2z (Z.testbit r 2) + 2 * Z.b2z (Z.testbit r 3)) &&
  (status_WPEN r =? Z.b2z (Z.testbit r 7)) &&
  (RDY (SR_of_R MsbFirst r) =? status_RDY r) &&
  (WEN (SR_of_R MsbFirst r) =? status_WEN r) &&
  (BP (SR_of_R MsbFirst r) =? status_BP r) &&
  (WPEN (SR_of_R MsbFirst r) =? status_WPEN r).

(** Writing a bit-field: the value, cut to the width of the field, at the
    place of the field. *)
Definition bitfield_put (o : bitfield_order) (widths : list Z) (k : nat) (v : Z) : Z :=
  Z.shiftl (Z.land v (Z.ones (nth k widths 0))) (bitfield_shift o widths k).

(** Writing [SR.B] and reading [SR.R]. *)
Definition R_of_SR (o : bitfield_order) (sr : EEPROM_StatusRegister) : Z :=
  Z.lor (bitfield_put o SR_widths 0 (WPEN sr))
    (Z.lor (bitfield_put o SR_widths 1 (UNUSED sr))
       (Z.lor (bitfield_put o SR_widths 2 (BP sr))
          (Z.lor (bitfield_put o SR_widths 3 (WEN sr))
                 (bitfield_put o SR_widths 4 (RDY sr))))).

(** Each field holds a value of its width. *)
Definition SR_fields_fit (sr : EEPROM_StatusRegister) : bool :=
  (0 <=? WPEN sr) && (WPEN sr <? 2 ^ 1) &&
  (0 <=? UNUSED sr) && (UNUSED sr <? 2 ^ 3) &&
  (0 <=? BP sr) && (BP sr <? 2 ^ 2) &&
  (0 <=? WEN sr) && (WEN sr <? 2 ^ 1) &&
  (0 <=? RDY sr) && (RDY sr <? 2 ^ 1).

(** The two views of the union agree on [r], in either allocation order,
    and the BP field of [r] is the value of an enumerator. *)
Definition union_ok (r : Z) : bool :=
  (R_of_SR MsbFirst (SR_of_R MsbFirst r) =? r) &&
  (R_of_SR LsbFirst (SR_of_R LsbFirst r) =? r) &&
  SR_fields_fit (SR_of_R MsbFirst r) &&
  SR_fields_fit (SR_of_R LsbFirst r) &&
  match BlockProtection_of_value (status_BP r) with
  | Some bp => BlockProtection_value bp =? BP (SR_of_R MsbFirst r)
  | None => false
  end.

(* ------------------------------------------------------------------ *)
(** ** eeprom.c: commands *)

Definition EEPROM_SPI_ENABLE_WRITE     : Z := 0x06.
Definition EEPROM_SPI_DISABLE_WRITE    : Z := 0x04.
Definition EEPROM_SPI_READ_STATUS_REG  : Z := 0x05.
Definition EEPROM_SPI_WRITE_STATUS_REG : Z := 0x01.
Definition EEPROM_SPI_READ_DATA        : Z := 0x03.
Definition EEPROM_SPI_WRITE_DATA       : Z := 0x02.

(** Conversion to [uint8_t]. *)
Definition to_uint8 (z : Z) : Z := z mod 2 ^ 8.

(** The two address bytes, as the driver computes them from a
    [uint16_t addr]. *)
Definition addr_high (addr : Z) : Z := Z.shiftr addr 8.
Definition addr_low  (addr : Z) : Z := Z.land addr 0xFF.

(* ------------------------------------------------------------------ *)
(** ** The HAL

    What eeprom.c calls and does not define.  [Dev] is the state of
    everything behind these calls (SPI peripheral, pad, the chip itself);
    [PORT6] and [PIN_DSPI_CS_EEPROM] come from the board's components.h. *)

Class HAL (SPIDriver SPIConfig Dev : Type) : Type := {
  spi_lld_polled_exchange : SPIDriver -> Z -> Dev -> Dev * Z;
  spi_lld_start : SPIDriver -> SPIConfig -> Dev -> Dev;
  spi_lld_stop : SPIDriver -> Dev -> Dev;
  pal_lld_setpad : Z -> Z -> Dev -> Dev;
  pal_lld_clearpad : Z -> Z -> Dev -> Dev;
  osalThreadDelayMicroseconds : Z -> Dev -> Dev;
  PORT6 : Z;
  PIN_DSPI_CS_EEPROM : Z
}.

(** One HAL call, as logged. [Exchange frame rx]: [frame] went out and the
    HAL returned [rx]. *)
Inductive event : Type :=
| Setpad (port pad : Z)
| Clearpad (port pad : Z)
| Exchange (frame rx : Z)
| Delay (us : Z)
| SpiStart
| SpiStop.

Record World (Dev : Type) : Type := mkWorld {
  dev : Dev;                 (* behind the HAL *)
  ram : Z -> Z;              (* the caller's memory, byte per address *)
  stores : list (Z * Z);     (* the driver's stores to [ram], oldest first *)
  log : list event           (* the HAL calls, oldest first *)
}.
Arguments mkWorld {Dev}.
Arguments dev {Dev}.
Arguments ram {Dev}.
Arguments stores {Dev}.
Arguments log {Dev}.

(** State passing. *)
Definition M (Dev A : Type) : Type := World Dev -> A * World Dev.

Definition ret {Dev A} (a : A) : M Dev A := fun w => (a, w).

Definition bind {Dev A B} (m : M Dev A) (k : A -> M Dev B) : M Dev B :=
  fun w => let (a, w') := m w in k a w'.

Declare Scope drv_scope.
Delimit Scope drv_scope with drv.
Notation "x <- m ;; k" := (bind m (fun x => k))
  (at level 61, m at next level, right associativity) : drv_scope.
Notation "m ;; k" := (bind m (fun _ => k))
  (at level 61, right associativity) : drv_scope.

Section Driver.

Context {SPIDriver SPIConfig Dev : Type} {hal : HAL SPIDriver SPIConfig Dev}.

Local Abbreviation W := (World Dev).
Local Abbreviation Drv := (M Dev).

Definition emit (f : Dev -> Dev) (e : event) : Drv unit :=
  fun w => (tt, mkWorld (f (dev w)) (ram w) (stores w) (log w ++ [e])).

(** [*(p) = v] for a [uint8_t *p], and [*(p)]. *)
Definition store8 (p v : Z) : Drv unit :=
  fun w => (tt, mkWorld (dev w)
                        (fun q => if q =? p then v else ram w q)
                        (stores w ++ [(p, v)])
                        (log w)).

Definition load8 (p : Z) : Drv Z := fun w => (ram w p, w).

(** *** HAL functions *)

(** [spi_lld_polled_exchange] hands back a frame; the wrapper returns it as
    [uint8_t]. *)
Definition EEPROM_exchangeSpi (spip : SPIDriver) (frame : Z) : Drv Z :=
  fun w =>
    let (d, rx) := spi_lld_polled_exchange spip frame (dev w) in
    (to_uint8 rx, mkWorld d (ram w) (stores w) (log w ++ [Exchange frame rx])).

Definition EEPROM_startSpi (spip : SPIDriver) (pConfig : SPIConfig) : Drv unit :=
  emit (spi_lld_start spip pConfig) SpiStart.

Definition EEPROM_stopSpi (spip : SPIDriver) : Drv unit :=
  emit (spi_lld_stop spip) SpiStop.

Definition EEPROM_setChipSelect : Drv unit :=
  emit (pal_lld_setpad PORT6 PIN_DSPI_CS_EEPROM)
       (Setpad PORT6 PIN_DSPI_CS_EEPROM).

Definition EEPROM_clearChipSelect : Drv unit :=
  emit (pal_lld_clearpad PORT6 PIN_DSPI_CS_EEPROM)
       (Clearpad PORT6 PIN_DSPI_CS_EEPROM).

Definition delay_us (n : Z) : Drv unit :=
  emit (osalThreadDelayMicroseconds n) (Delay n).

(** *** Commands *)

Local Open Scope drv_scope.

Definition EEPROM_enableWrite (spip : SPIDriver) : Drv unit :=
  EEPROM_clearChipSelect ;;
  EEPROM_exchangeSpi spip EEPROM_SPI_ENABLE_WRITE ;;
  EEPROM_setChipSelect.

Definition EEPROM_disableWrite (spip : SPIDriver) : Drv unit :=
  EEPROM_clearChipSelect ;;
  EEPROM_exchangeSpi spip EEPROM_SPI_DISABLE_WRITE ;;
  EEPROM_setChipSelect.

Definition EEPROM_readStatusReg (spip : SPIDriver) : Drv Z :=
  EEPROM_clearChipSelect ;;
  EEPROM_exchangeSpi spip EEPROM_SPI_READ_STATUS_REG ;;
  retVal <- EEPROM_exchangeSpi spip 0 ;;
  EEPROM_setChipSelect ;;
  ret retVal.

Definition EEPROM_writeStatusReg (spip : SPIDriver) (cmd : Z) : Drv unit :=
  EEPROM_clearChipSelect ;;
  EEPROM_exchangeSpi spip EEPROM_SPI_WRITE_STATUS_REG ;;
  EEPROM_exchangeSpi spip cmd ;;
  EEPROM_setChipSelect.

Definition EEPROM_readByte (spip : SPIDriver) (addr : Z) : Drv Z :=
  EEPROM_clearChipSelect ;;
  EEPROM_exchangeSpi spip EEPROM_SPI_READ_DATA ;;
  EEPROM_exchangeSpi spip (addr_high addr) ;;
  EEPROM_exchangeSpi spip (addr_low addr) ;;
  retVal <- EEPROM_exchangeSpi spip 0 ;;
  EEPROM_setChipSelect ;;
  ret retVal.

Definition EEPROM_writeByte (spip : SPIDriver) (addr data : Z) : Drv unit :=
  EEPROM_clearChipSelect ;;
  EEPROM_exchangeSpi spip EEPROM_SPI_WRITE_DATA ;;
  EEPROM_exchangeSpi spip (addr_high addr) ;;
  EEPROM_exchangeSpi spip (addr_low addr) ;;
  EEPROM_exchangeSpi spip data ;;
  EEPROM_setChipSelect.

(** [for (uint32_t i = ...; i < length; i++) data[i] = exchange(0);]
    with [n] iterations left, [n = length - i]. *)
Fixpoint readRange_loop (spip : SPIDriver) (data i : Z) (n : nat) : Drv unit :=
  match n with
  | O => ret tt
  | S n' =>
      rx <- EEPROM_exchangeSpi spip 0 ;;
      store8 (data + i) rx ;;
      readRange_loop spip data (i + 1) n'
  end.

Definition EEPROM_readRange (spip : SPIDriver) (startAddr data length : Z)
  : Drv unit :=
  EEPROM_clearChipSelect ;;
  EEPROM_exchangeSpi spip EEPROM_SPI_READ_DATA ;;
  EEPROM_exchangeSpi spip (addr_high startAddr) ;;
  EEPROM_exchangeSpi spip (addr_low startAddr) ;;
  readRange_loop spip data 0 (Z.to_nat length) ;;
  EEPROM_setChipSelect.

(** [for (uint32_t i = ...; i < length; i++) exchange(data[i]);] *)
Fixpoint writeRange_loop (spip : SPIDriver) (data i : Z) (n : nat) : Drv unit :=
  match n with
  | O => ret tt
  | S n' =>
      b <- load8 (data + i) ;;
      EEPROM_exchangeSpi spip b ;;
      writeRange_loop spip data (i + 1) n'
  end.

Definition EEPROM_writeRange (spip : SPIDriver) (startAddr data length : Z)
  : Drv unit :=
  EEPROM_clearChipSelect ;;
  EEPROM_exchangeSpi spip EEPROM_SPI_WRITE_DATA ;;
  EEPROM_exchangeSpi spip (addr_high startAddr) ;;
  EEPROM_exchangeSpi spip (addr_low startAddr) ;;
  writeRange_loop spip data 0 (Z.to_nat length) ;;
  EEPROM_setChipSelect.

(** [while(1)] has no bound of its own; [fuel] bounds the number of
    iterations the model follows, and [None] means the loop was still
    running when it ran out. *)
Fixpoint EEPROM_wait (fuel : nat) (spip : SPIDriver) (w : W) : option W :=
  match fuel with
  | O => None
  | S fuel' =>
      let (status, w1) := EEPROM_readStatusReg spip w in
      if Z.land status EEPROM_STATUS_BIT_RDY =? 0
      then Some w1
      else EEPROM_wait fuel' spip (snd (delay_us 1 w1))
  end.

(* ------------------------------------------------------------------ *)
(** *** Reading the log *)

Definition CS_assert : event := Clearpad PORT6 PIN_DSPI_CS_EEPROM.
Definition CS_deassert : event := Setpad PORT6 PIN_DSPI_CS_EEPROM.

(** One transaction: chip-select goes low, the exchanges [(sent, returned)]
    follow in order, chip-select goes high. *)
Definition frame (xs : list (Z * Z)) : list event :=
  CS_assert :: map (fun x => Exchange (fst x) (snd x)) xs ++ [CS_deassert].

(** Level of the chip-select pad after the calls of a log: [Some true] is
    high, [Some false] low, [None] not driven yet. *)
Definition cs_step (l : option bool) (e : event) : option bool :=
  match e with
  | Setpad p q =>
      if (p =? PORT6) && (q =? PIN_DSPI_CS_EEPROM) then Some true else l
  | Clearpad p q =>
      if (p =? PORT6) && (q =? PIN_DSPI_CS_EEPROM) then Some false else l
  | _ => l
  end.

Definition cs_level (t : list event) : option bool := fold_left cs_step t None.

Definition is_pad_event (e : event) : bool :=
  match e with
  | Setpad _ _ | Clearpad _ _ => true
  | _ => false
  end.

(** The pad calls of a log, in order. *)
Definition pad_events (t : list event) : list event := filter is_pad_event t.

Definition is_exchange (e : event) : bool :=
  match e with
  | Exchange _ _ => true
  | _ => false
  end.

(** Number of exchanges and of chip-select assertions in a log. *)
Definition exchanges (t : list event) : nat := length (filter is_exchange t).

Definition transactions (t : list event) : nat :=
  length (filter (fun e => match e with Clearpad _ _ => true | _ => false end) t).

(** The calls [after] adds to [before] are one frame whose first exchange
    sends [opcode]. *)
Definition one_frame (opcode : Z) (before after : list event) : Prop :=
  exists r xs, after = before ++ frame ((opcode, r) :: xs).

(** [n] times: pad cleared, pad set. *)
Definition cs_pairs (n : nat) : list event :=
  concat (repeat [CS_assert; CS_deassert] n).

(** The calls [after] adds to [before] clear and set the chip-select pad [n]
    times in turn, and leave it high. *)
Definition cs_released (n : nat) (before after : list event) : Prop :=
  cs_level after = Some true /\
  exists t, after = before ++ t /\ pad_events t = cs_pairs n.

(** *** The poller, seen from outside *)

Definition rdy_set (status : Z) : bool :=
  negb (Z.land status EEPROM_STATUS_BIT_RDY =? 0).

(** From one status read of [EEPROM_wait] to just before the next. *)
Definition poll_next (spip : SPIDriver) (w : W) : W :=
  snd (delay_us 1 (snd (EEPROM_readStatusReg spip w))).

Fixpoint world_at_poll (i : nat) (spip : SPIDriver) (w : W) : W :=
  match i with
  | O => w
  | S i' => world_at_poll i' spip (poll_next spip w)
  end.

(** What the [i]-th status read (from 0) of a polling loop started in [w]
    returns. *)
Definition nth_status (i : nat) (spip : SPIDriver) (w : W) : Z :=
  fst (EEPROM_readStatusReg spip (world_at_poll i spip w)).

(** The log of a polling loop: status frames with [Delay 1] in between. *)
Fixpoint poll_trace (rs : list (Z * Z)) : list event :=
  match rs with
  | [] => []
  | r :: rs' =>
      frame [(EEPROM_SPI_READ_STATUS_REG, fst r); (0, snd r)] ++
      match rs' with
      | [] => []
      | _ :: _ => Delay 1 :: poll_trace rs'
      end
  end.

(** *** The range buffers *)

(** The stores [data[i] = rx], [data[i+1] = rx'], ... of a read. *)
Fixpoint buffer_stores (data i : Z) (rs : list Z) : list (Z * Z) :=
  match rs with
  | [] => []
  | r :: rs' => (data + i, to_uint8 r) :: buffer_stores data (i + 1) rs'
  end.

(** [data[i], data[i+1], ...], [n] of them. *)
Fixpoint buffer_bytes (m : Z -> Z) (data i : Z) (n : nat) : list Z :=
  match n with
  | O => []
  | S n' => m (data + i) :: buffer_bytes m data (i + 1) n'
  end.

(** *** More on the log *)

(** What [after] holds beyond [before]. *)
Definition added {A : Type} (before after : list A) : list A :=
  skipn (length before) after.

(** The frames handed to the HAL, and the frames it handed back. *)
Definition sent (t : list event) : list Z :=
  flat_map (fun e => match e with Exchange f _ => [f] | _ => [] end) t.

Definition received (t : list event) : list Z :=
  flat_map (fun e => match e with Exchange _ rx => [rx] | _ => [] end) t.

(** Microseconds asked of the delay. *)
Definition delay_total (t : list event) : Z :=
  fold_right (fun e acc => match e with Delay us => us + acc | _ => acc end) 0 t.

Definition is_byte (z : Z) : bool := (0 <=? z) && (z <? 2 ^ 8).

Definition cs_low (l : option bool) : bool :=
  match l with
  | Some false => true
  | _ => false
  end.

(** The bus is used in frames: from chip-select level [l] on, the pad is
    cleared only when it is not low and set only when it is low, exchanges
    happen only while it is low, and delays and bus start and stop only
    while it is not. *)
Fixpoint bus_ok (l : option bool) (t : list event) : bool :=
  match t with
  | [] => true
  | e :: t' =>
      match e with
      | Exchange _ _ => cs_low l
      | Setpad p q =>
          if (p =? PORT6) && (q =? PIN_DSPI_CS_EEPROM) then cs_low l else true
      | Clearpad p q =>
          if (p =? PORT6) && (q =? PIN_DSPI_CS_EEPROM) then negb (cs_low l)
          else true
      | Delay _ | SpiStart | SpiStop => negb (cs_low l)
      end && bus_ok (cs_step l e) t'
  end.

End Driver.

(* ------------------------------------------------------------------ *)
(** ** Use of the driver *)

Section Usage.

Context {SPIDriver SPIConfig Dev : Type} {hal : HAL SPIDriver SPIConfig Dev}.

(** Enable write, write one byte, wait for the write cycle, read the byte
    back.  [None]: the wait was still polling after [fuel] status reads. *)
Definition write_then_read (fuel : nat) (spip : SPIDriver) (addr v : Z)
  (w : World Dev) : option (Z * World Dev) :=
  let w1 := snd (EEPROM_enableWrite spip w) in
  let w2 := snd (EEPROM_writeByte spip addr v w1) in
  match EEPROM_wait fuel spip w2 with
  | None => None
  | Some w3 => Some (EEPROM_readByte spip addr w3)
  end.

End Usage.

(* ------------------------------------------------------------------ *)
(** ** Devices behind the HAL *)

(** Modelled from the spec: the EEPROM chip, which is hardware and not part
    of the sources.  It follows the spec's sections 3, 4.1 and 4.2: the chip
    collects the bytes of a frame while chip-select is low and acts on the
    frame when chip-select goes high; a read streams the memory array from
    the given 16-bit address, the address moving on with every byte; a write
    frame is latched into the array when the write-enable latch is set and
    the address is outside the protected block, after which the latch is
    cleared and [RDY] reads 1 for the length of the write cycle; while busy
    the chip answers only status reads; a status-register write stores the
    BP and WPEN bits, unless WPEN is already set.  The protected blocks are
    the address ranges EEPROM.h gives for [EEPROM_BlockProtection].  Time
    passes in the delays only. *)
Module Chip.

Record state : Type := mk {
  selected : bool;     (* chip-select low *)
  rxbuf : list Z;      (* bytes received in this frame, oldest first *)
  mem : Z -> Z;        (* the memory array *)
  wel : bool;          (* write-enable latch *)
  sreg : Z;            (* the stored bits of the status register: BP, WPEN *)
  busy : nat;          (* microseconds left of the write cycle *)
  t_write : nat        (* length of a write cycle, microseconds *)
}.

Definition stored_bits : Z := Z.lor EEPROM_STATUS_BIT_BP EEPROM_STATUS_BIT_WPEN.

Definition status (c : state) : Z :=
  Z.lor (Z.lor (if Nat.eqb (busy c) 0 then 0 else EEPROM_STATUS_BIT_RDY)
               (if wel c then EEPROM_STATUS_BIT_WEN else 0))
        (Z.land (sreg c) stored_bits).

Definition protected (c : state) (a : Z) : bool :=
  match BlockProtection_of_value (status_BP (sreg c)) with
  | Some BlockProtection_Quarter => (0x0C00 <=? a) && (a <=? 0x0FFF)
  | Some BlockProtection_Half => (0x0800 <=? a) && (a <=? 0x0FFF)
  | Some BlockProtection_WholeMemory => (0x0000 <=? a) && (a <=? 0x0FFF)
  | _ => false
  end.

(** The address the chip reads off the two address bytes. *)
Definition address (hi lo : Z) : Z := Z.lor (Z.shiftl hi 8) lo.

(** What the chip shifts out during the next exchange. *)
Definition respond (c : state) : Z :=
  match rxbuf c with
  | [] => 0
  | op :: args =>
      if op =? EEPROM_SPI_READ_STATUS_REG then status c
      else if (op =? EEPROM_SPI_READ_DATA) && Nat.eqb (busy c) 0 then
        match args with
        | hi :: lo :: more =>
            mem c ((address hi lo + Z.of_nat (length more)) mod 2 ^ 16)
        | _ => 0
        end
      else 0
  end.

Definition exchange (out : Z) (c : state) : state * Z :=
  if selected c
  then (mk true (rxbuf c ++ [out]) (mem c) (wel c) (sreg c) (busy c) (t_write c),
        respond c)
  else (c, 0).

Fixpoint write_bytes (c : state) (m : Z -> Z) (a : Z) (ds : list Z) : Z -> Z :=
  match ds with
  | [] => m
  | d :: ds' =>
      write_bytes c
        (if protected c a then m else fun q => if q =? a then d else m q)
        ((a + 1) mod 2 ^ 16) ds'
  end.

(** Acting on the frame received, when chip-select goes high. *)
Definition latch (c : state) : state :=
  if negb (Nat.eqb (busy c) 0) then c
  else
    match rxbuf c with
    | [op] =>
        if op =? EEPROM_SPI_ENABLE_WRITE
        then mk (selected c) (rxbuf c) (mem c) true (sreg c) (busy c) (t_write c)
        else if op =? EEPROM_SPI_DISABLE_WRITE
        then mk (selected c) (rxbuf c) (mem c) false (sreg c) (busy c) (t_write c)
        else c
    | [op; s] =>
        if (op =? EEPROM_SPI_WRITE_STATUS_REG) && wel c
           && (status_WPEN (sreg c) =? 0)
        then mk (selected c) (rxbuf c) (mem c) false
                (Z.land s stored_bits)
                (t_write c) (t_write c)
        else c
    | op :: hi :: lo :: d :: ds =>
        if (op =? EEPROM_SPI_WRITE_DATA) && wel c
        then mk (selected c) (rxbuf c)
                (write_bytes c (mem c) (address hi lo mod 2 ^ 16) (d :: ds))
                false (sreg c) (t_write c) (t_write c)
        else c
    | _ => c
    end.

Definition select (c : state) : state :=
  mk true [] (mem c) (wel c) (sreg c) (busy c) (t_write c).

Definition deselect (c : state) : state :=
  if selected c
  then let c' := latch c in
       mk false [] (mem c') (wel c') (sreg c') (busy c') (t_write c')
  else c.

Definition tick (us : Z) (c : state) : state :=
  mk (selected c) (rxbuf c) (mem c) (wel c) (sreg c)
     (busy c - Z.to_nat us) (t_write c).

(** Where the board wires the chip-select of the chip. *)
Definition cs_port : Z := 6.
Definition cs_pin : Z := 3.

Definition is_cs (port pad : Z) : bool := (port =? cs_port) && (pad =? cs_pin).

#[export] Instance chip_hal : HAL unit unit state := {|
  spi_lld_polled_exchange := fun _ out c => exchange out c;
  spi_lld_start := fun _ _ c => c;
  spi_lld_stop := fun _ c => c;
  pal_lld_setpad := fun port pad c => if is_cs port pad then deselect c else c;
  pal_lld_clearpad := fun port pad c => if is_cs port pad then select c else c;
  osalThreadDelayMicroseconds := tick;
  PORT6 := cs_port;
  PIN_DSPI_CS_EEPROM := cs_pin
|}.

(** The chip at rest between two transactions. *)
Definition idle (c : state) : Prop := selected c = false /\ busy c = 0%nat.

(** A chip at rest with memory [m], in the middle of nothing. *)
Definition fresh (m : Z -> Z) (tw : nat) : state := mk false [] m false 0 0 tw.

(** An erased memory array. *)
Definition blank : Z -> Z := fun _ => 0xFF.

(** A chip [k] microseconds before the end of a write cycle. *)
Definition writing (m : Z -> Z) (k : nat) : state := mk false [] m false 0 k k.

(** The world around a chip: no buffer in use, nothing logged yet. *)
Definition world (c : state) : World state := mkWorld c (fun _ => 0) [] [].

End Chip.

(** A bus with nothing answering: the data-in line stays high, every
    exchange returns a frame of ones. *)
Module NoChip.

#[export] Instance nochip_hal : HAL unit unit unit := {|
  spi_lld_polled_exchange := fun _ _ d => (d, 0xFFFF);
  spi_lld_start := fun _ _ d => d;
  spi_lld_stop := fun _ d => d;
  pal_lld_setpad := fun _ _ d => d;
  pal_lld_clearpad := fun _ _ d => d;
  osalThreadDelayMicroseconds := fun _ d => d;
  PORT6 := 6;
  PIN_DSPI_CS_EEPROM := 3
|}.

Definition world : World unit := mkWorld tt (fun _ => 0) [] [].

End NoChip.

(* ------------------------------------------------------------------ *)
(** * Facts *)

(** ** Bit layout *)

Lemma addr_recombine (a : Z) :
  Z.lor (Z.shiftl (addr_high a) 8) (addr_low a) = a.
Proof.
  unfold addr_high, addr_low.
  change 0xFF with (Z.ones 8).
  apply Z.bits_inj'; intros n Hn.
  rewrite Z.lor_spec, Z.land_spec.
  destruct (Z.ltb_spec n 8) as [Hlt | Hge].
  - rewrite Z.shiftl_spec_low by lia.
    rewrite Z.ones_spec_low by lia.
    now rewrite andb_true_r.
  - rewrite Z.shiftl_spec by lia.
    rewrite Z.shiftr_spec by lia.
    rewrite Z.ones_spec_high by lia.
    rewrite andb_false_r, orb_false_r.
    f_equal; lia.
Qed.

Lemma addr_high_byte (a : Z) : 0 <= a < 2 ^ 16 -> 0 <= addr_high a < 2 ^ 8.
Proof.
  intros Ha; unfold addr_high.
  rewrite Z.shiftr_div_pow2 by lia.
  split.
  - apply Z.div_pos; lia.
  - apply Z.div_lt_upper_bound; lia.
Qed.

Lemma addr_low_byte (a : Z) : 0 <= addr_low a < 2 ^ 8.
Proof.
  unfold addr_low.
  change 0xFF with (Z.ones 8).
  rewrite Z.land_ones by lia.
  apply Z.mod_pos_bound; lia.
Qed.

Lemma to_uint8_byte (v : Z) : 0 <= v < 2 ^ 8 -> to_uint8 v = v.
Proof. intros Hv; unfold to_uint8; apply Z.mod_small; exact Hv. Qed.

Lemma in_all_bytes (r : Z) : 0 <= r < 2 ^ 8 -> In r all_bytes.
Proof.
  intros Hr; unfold all_bytes.
  apply in_map_iff; exists (Z.to_nat r); split; [lia |].
  apply in_seq; lia.
Qed.

Lemma layout_ok_all : forallb layout_ok all_bytes = true.
Proof. vm_compute; reflexivity. Qed.

(** What a compiler that allocates bit-fields from the least significant
    bit would make of the same declaration: the fields land elsewhere, and
    only the masks keep their meaning. *)
Example SR_of_R_lsb_first : SR_of_R LsbFirst 0x85 = mkSR 1 2 0 0 1.
Proof. reflexivity. Qed.

Lemma layout_ok_byte (r : Z) : 0 <= r < 2 ^ 8 -> layout_ok r = true.
Proof.
  intros Hr.
  exact (proj1 (forallb_forall layout_ok all_bytes) layout_ok_all r
           (in_all_bytes r Hr)).
Qed.

(** ** The driver on any HAL *)

Section DriverFacts.

Context {SPIDriver SPIConfig Dev : Type} {hal : HAL SPIDriver SPIConfig Dev}.

Lemma exchangeSpi_eq (spip : SPIDriver) (f : Z) (w : World Dev) :
  EEPROM_exchangeSpi spip f w =
  (to_uint8 (snd (spi_lld_polled_exchange spip f (dev w))),
   mkWorld (fst (spi_lld_polled_exchange spip f (dev w)))
           (ram w) (stores w)
           (log w ++ [Exchange f (snd (spi_lld_polled_exchange spip f (dev w)))])).
Proof.
  unfold EEPROM_exchangeSpi.
  destruct (spi_lld_polled_exchange spip f (dev w)); reflexivity.
Qed.

Ltac drv_unfold :=
  unfold EEPROM_enableWrite, EEPROM_disableWrite, EEPROM_readStatusReg,
    EEPROM_writeStatusReg, EEPROM_readByte, EEPROM_writeByte,
    EEPROM_readRange, EEPROM_writeRange,
    EEPROM_setChipSelect, EEPROM_clearChipSelect, delay_us,
    bind, ret, emit, store8, load8.

Ltac drv_run :=
  drv_unfold; repeat (rewrite exchangeSpi_eq; cbn [fst snd dev ram stores log]).

Ltac log_norm :=
  unfold frame; cbn [map fst snd app];
  repeat rewrite <- app_assoc; cbn [app].

Lemma enableWrite_log (spip : SPIDriver) (w : World Dev) :
  exists r, log (snd (EEPROM_enableWrite spip w)) =
            log w ++ frame [(EEPROM_SPI_ENABLE_WRITE, r)].
Proof. drv_run. eexists. log_norm. reflexivity. Qed.

Lemma disableWrite_log (spip : SPIDriver) (w : World Dev) :
  exists r, log (snd (EEPROM_disableWrite spip w)) =
            log w ++ frame [(EEPROM_SPI_DISABLE_WRITE, r)].
Proof. drv_run. eexists. log_norm. reflexivity. Qed.

Lemma readStatusReg_log (spip : SPIDriver) (w : World Dev) :
  exists r0 r1,
    log (snd (EEPROM_readStatusReg spip w)) =
    log w ++ frame [(EEPROM_SPI_READ_STATUS_REG, r0); (0, r1)] /\
    fst (EEPROM_readStatusReg spip w) = to_uint8 r1.
Proof. drv_run. do 2 eexists. log_norm. split; reflexivity. Qed.

Lemma writeStatusReg_log (spip : SPIDriver) (cmd : Z) (w : World Dev) :
  exists r0 r1,
    log (snd (EEPROM_writeStatusReg spip cmd w)) =
    log w ++ frame [(EEPROM_SPI_WRITE_STATUS_REG, r0); (cmd, r1)].
Proof. drv_run. do 2 eexists. log_norm. reflexivity. Qed.

Lemma readByte_log (spip : SPIDriver) (addr : Z) (w : World Dev) :
  exists r0 r1 r2 r3,
    log (snd (EEPROM_readByte spip addr w)) =
    log w ++ frame [(EEPROM_SPI_READ_DATA, r0); (addr_high addr, r1);
                    (addr_low addr, r2); (0, r3)] /\
    fst (EEPROM_readByte spip addr w) = to_uint8 r3.
Proof. drv_run. do 4 eexists. log_norm. split; reflexivity. Qed.

Lemma writeByte_log (spip : SPIDriver) (addr data : Z) (w : World Dev) :
  exists r0 r1 r2 r3,
    log (snd (EEPROM_writeByte spip addr data w)) =
    log w ++ frame [(EEPROM_SPI_WRITE_DATA, r0); (addr_high addr, r1);
                    (addr_low addr, r2); (data, r3)].
Proof. drv_run. do 4 eexists. log_norm. reflexivity. Qed.

(** Starting and stopping the bus does not touch chip-select. *)
Lemma lifecycle_log (spip : SPIDriver) (pConfig : SPIConfig) (w : World Dev) :
  log (snd (EEPROM_startSpi spip pConfig w)) = log w ++ [SpiStart] /\
  log (snd (EEPROM_stopSpi spip w)) = log w ++ [SpiStop].
Proof. split; reflexivity. Qed.

(** The single-frame commands leave the caller's memory alone. *)
Lemma fixed_commands_ram (spip : SPIDriver) (a v : Z) (w : World Dev) :
  ram (snd (EEPROM_enableWrite spip w)) = ram w /\
  ram (snd (EEPROM_disableWrite spip w)) = ram w /\
  ram (snd (EEPROM_readStatusReg spip w)) = ram w /\
  ram (snd (EEPROM_writeStatusReg spip v w)) = ram w /\
  ram (snd (EEPROM_readByte spip a w)) = ram w /\
  ram (snd (EEPROM_writeByte spip a v w)) = ram w.
Proof. drv_run. repeat split. Qed.

(** *** The loops *)

Lemma readRange_loop_S (spip : SPIDriver) (data i : Z) (n : nat) (w : World Dev) :
  readRange_loop spip data i (S n) w =
  let x := spi_lld_polled_exchange spip 0 (dev w) in
  readRange_loop spip data (i + 1) n
    (mkWorld (fst x)
             (fun q => if q =? data + i then to_uint8 (snd x) else ram w q)
             (stores w ++ [(data + i, to_uint8 (snd x))])
             (log w ++ [Exchange 0 (snd x)])).
Proof.
  cbn [readRange_loop]. unfold bind, store8.
  rewrite exchangeSpi_eq. reflexivity.
Qed.

Lemma writeRange_loop_S (spip : SPIDriver) (data i : Z) (n : nat) (w : World Dev) :
  writeRange_loop spip data i (S n) w =
  let x := spi_lld_polled_exchange spip (ram w (data + i)) (dev w) in
  writeRange_loop spip data (i + 1) n
    (mkWorld (fst x) (ram w) (stores w)
             (log w ++ [Exchange (ram w (data + i)) (snd x)])).
Proof.
  cbn [writeRange_loop]. unfold bind, load8.
  rewrite exchangeSpi_eq. reflexivity.
Qed.

Lemma readRange_loop_spec (spip : SPIDriver) (data : Z) (n : nat) :
  forall (i : Z) (w : World Dev),
  exists rs,
    length rs = n /\
    log (snd (readRange_loop spip data i n w)) =
      log w ++ map (fun r => Exchange 0 r) rs /\
    stores (snd (readRange_loop spip data i n w)) =
      stores w ++ buffer_stores data i rs /\
    (forall j, (j < n)%nat ->
       ram (snd (readRange_loop spip data i n w)) (data + i + Z.of_nat j) =
       to_uint8 (nth j rs 0)) /\
    (forall p, p < data + i \/ data + i + Z.of_nat n <= p ->
       ram (snd (readRange_loop spip data i n w)) p = ram w p).
Proof.
  induction n as [| n IH]; intros i w.
  - exists []. cbn. repeat split; try (now rewrite app_nil_r); intros; lia.
  - rewrite readRange_loop_S. cbv zeta.
    set (x := spi_lld_polled_exchange spip 0 (dev w)).
    match goal with
    | |- context [readRange_loop spip data (i + 1) n ?ww] => set (w1 := ww)
    end.
    destruct (IH (i + 1) w1) as (rs & Hlen & Hlog & Hst & Hin & Hout).
    exists (snd x :: rs).
    split; [cbn; lia |].
    split; [rewrite Hlog; subst w1; cbn; now rewrite <- app_assoc |].
    split; [rewrite Hst; subst w1; cbn; now rewrite <- app_assoc |].
    split.
    + intros [| j] Hj.
      * rewrite Hout by lia. subst w1; cbn.
        replace (data + i + 0 =? data + i) with true
          by (symmetry; apply Z.eqb_eq; lia).
        reflexivity.
      * replace (data + i + Z.of_nat (S j)) with (data + (i + 1) + Z.of_nat j)
          by lia.
        rewrite Hin by lia. reflexivity.
    + intros p Hp. rewrite Hout by lia. subst w1; cbn.
      replace (p =? data + i) with false by (symmetry; apply Z.eqb_neq; lia).
      reflexivity.
Qed.

Lemma writeRange_loop_spec (spip : SPIDriver) (data : Z) (n : nat) :
  forall (i : Z) (w : World Dev),
  exists rs,
    length rs = n /\
    log (snd (writeRange_loop spip data i n w)) =
      log w ++ map (fun x => Exchange (fst x) (snd x))
                   (combine (buffer_bytes (ram w) data i n) rs) /\
    stores (snd (writeRange_loop spip data i n w)) = stores w /\
    ram (snd (writeRange_loop spip data i n w)) = ram w.
Proof.
  induction n as [| n IH]; intros i w.
  - exists []. cbn. repeat split. now rewrite app_nil_r.
  - rewrite writeRange_loop_S. cbv zeta.
    set (x := spi_lld_polled_exchange spip (ram w (data + i)) (dev w)).
    match goal with
    | |- context [writeRange_loop spip data (i + 1) n ?ww] => set (w1 := ww)
    end.
    destruct (IH (i + 1) w1) as (rs & Hlen & Hlog & Hst & Hram).
    exists (snd x :: rs).
    split; [cbn; lia |].
    split; [rewrite Hlog; subst w1; cbn; now rewrite <- app_assoc |].
    split; [rewrite Hst | rewrite Hram]; reflexivity.
Qed.

Lemma buffer_bytes_seq (m : Z -> Z) (data : Z) (n : nat) :
  forall i, buffer_bytes m data i n =
            map (fun j => m (data + i + Z.of_nat j)) (seq 0 n).
Proof.
  induction n as [| n IH]; intros i; [reflexivity |].
  cbn [buffer_bytes seq map]. rewrite IH, <- seq_shift, map_map.
  f_equal; [f_equal; lia |].
  apply map_ext; intros j; f_equal; lia.
Qed.

Lemma buffer_stores_seq (data : Z) (rs : list Z) :
  forall i, buffer_stores data i rs =
            map (fun j => (data + i + Z.of_nat j, to_uint8 (nth j rs 0)))
                (seq 0 (length rs)).
Proof.
  induction rs as [| r rs IH]; intros i; [reflexivity |].
  cbn [buffer_stores length seq map nth]. rewrite IH, <- seq_shift, map_map.
  f_equal; [f_equal; lia |].
  apply map_ext; intros j; f_equal; lia.
Qed.

Lemma readRange_spec (spip : SPIDriver) (startAddr data : Z) (N : nat)
  (w : World Dev) :
  exists r0 r1 r2 rs,
    length rs = N /\
    log (snd (EEPROM_readRange spip startAddr data (Z.of_nat N) w)) =
      log w ++ frame ((EEPROM_SPI_READ_DATA, r0) :: (addr_high startAddr, r1) ::
                      (addr_low startAddr, r2) :: map (fun r => (0, r)) rs) /\
    stores (snd (EEPROM_readRange spip startAddr data (Z.of_nat N) w)) =
      stores w ++ buffer_stores data 0 rs /\
    (forall j, (j < N)%nat ->
       ram (snd (EEPROM_readRange spip startAddr data (Z.of_nat N) w))
           (data + Z.of_nat j) = to_uint8 (nth j rs 0)) /\
    (forall p, p < data \/ data + Z.of_nat N <= p ->
       ram (snd (EEPROM_readRange spip startAddr data (Z.of_nat N) w)) p =
       ram w p).
Proof.
  drv_run. rewrite Nat2Z.id.
  set (x0 := spi_lld_polled_exchange spip EEPROM_SPI_READ_DATA _).
  set (x1 := spi_lld_polled_exchange spip (addr_high startAddr) _).
  set (x2 := spi_lld_polled_exchange spip (addr_low startAddr) _).
  match goal with
  | |- context [readRange_loop spip data 0 N ?ww] => set (w3 := ww)
  end.
  destruct (readRange_loop_spec spip data N 0 w3)
    as (rs & Hlen & Hlog & Hst & Hin & Hout).
  destruct (readRange_loop spip data 0 N w3) as [u w4].
  cbn [fst snd dev ram stores log].
  cbn [fst snd] in Hlog, Hst, Hin, Hout.
  exists (snd x0), (snd x1), (snd x2), rs.
  split; [exact Hlen |].
  split.
  { rewrite Hlog. unfold w3. cbn [log]. log_norm.
    rewrite map_map. cbn [fst snd]. reflexivity. }
  split; [exact Hst |].
  split.
  - intros j Hj. specialize (Hin j Hj).
    replace (data + 0 + Z.of_nat j) with (data + Z.of_nat j) in Hin by lia.
    exact Hin.
  - intros p Hp. apply Hout. lia.
Qed.

Lemma writeRange_spec (spip : SPIDriver) (startAddr data : Z) (N : nat)
  (w : World Dev) :
  exists r0 r1 r2 rs,
    length rs = N /\
    log (snd (EEPROM_writeRange spip startAddr data (Z.of_nat N) w)) =
      log w ++ frame ((EEPROM_SPI_WRITE_DATA, r0) :: (addr_high startAddr, r1) ::
                      (addr_low startAddr, r2) ::
                      combine (map (fun j => ram w (data + Z.of_nat j)) (seq 0 N))
                              rs) /\
    stores (snd (EEPROM_writeRange spip startAddr data (Z.of_nat N) w)) =
      stores w /\
    ram (snd (EEPROM_writeRange spip startAddr data (Z.of_nat N) w)) = ram w.
Proof.
  drv_run. rewrite Nat2Z.id.
  set (x0 := spi_lld_polled_exchange spip EEPROM_SPI_WRITE_DATA _).
  set (x1 := spi_lld_polled_exchange spip (addr_high startAddr) _).
  set (x2 := spi_lld_polled_exchange spip (addr_low startAddr) _).
  match goal with
  | |- context [writeRange_loop spip data 0 N ?ww] => set (w3 := ww)
  end.
  destruct (writeRange_loop_spec spip data N 0 w3)
    as (rs & Hlen & Hlog & Hst & Hram).
  destruct (writeRange_loop spip data 0 N w3) as [u w4].
  cbn [fst snd dev ram stores log].
  cbn [fst snd] in Hlog, Hst, Hram.
  exists (snd x0), (snd x1), (snd x2), rs.
  split; [exact Hlen |].
  split; [| split; assumption].
  rewrite Hlog, buffer_bytes_seq. unfold w3. cbn [log ram]. log_norm.
  erewrite (map_ext (fun j => ram w (data + 0 + Z.of_nat j)))
    by (intros j; rewrite Z.add_0_r; reflexivity).
  reflexivity.
Qed.

(** *** Chip-select along a log *)

Lemma cs_step_exchanges (xs : list (Z * Z)) (l : option bool) :
  fold_left cs_step (map (fun x => Exchange (fst x) (snd x)) xs) l = l.
Proof. induction xs as [| x xs IH]; [reflexivity | exact IH]. Qed.

Lemma cs_level_frame (t : list event) (xs : list (Z * Z)) :
  cs_level (t ++ frame xs) = Some true.
Proof.
  unfold cs_level, frame.
  rewrite fold_left_app. cbn [fold_left].
  rewrite fold_left_app, cs_step_exchanges.
  cbn. now rewrite !Z.eqb_refl.
Qed.

Lemma pad_events_frame (xs : list (Z * Z)) :
  pad_events (frame xs) = [CS_assert; CS_deassert].
Proof.
  unfold pad_events, frame. cbn [filter is_pad_event CS_assert].
  f_equal.
  induction xs as [| x xs IH]; [reflexivity | exact IH].
Qed.

Lemma transactions_frame (xs : list (Z * Z)) : transactions (frame xs) = 1%nat.
Proof.
  unfold transactions, frame. cbn [filter CS_assert length]. f_equal.
  induction xs as [| x xs IH]; [reflexivity | exact IH].
Qed.

Lemma exchanges_frame (xs : list (Z * Z)) : exchanges (frame xs) = length xs.
Proof.
  unfold exchanges, frame. cbn [filter CS_assert is_exchange].
  induction xs as [| x xs IH]; [reflexivity | cbn; f_equal; exact IH].
Qed.

Lemma transactions_app (t u : list event) :
  transactions (t ++ u) = (transactions t + transactions u)%nat.
Proof. unfold transactions. now rewrite filter_app, length_app. Qed.

(** *** The poller *)

Lemma wait_S (fuel : nat) (spip : SPIDriver) (w : World Dev) :
  EEPROM_wait (S fuel) spip w =
  if rdy_set (nth_status 0 spip w)
  then EEPROM_wait fuel spip (poll_next spip w)
  else Some (snd (EEPROM_readStatusReg spip w)).
Proof.
  cbn [EEPROM_wait]. unfold nth_status, rdy_set, poll_next.
  cbn [world_at_poll].
  destruct (EEPROM_readStatusReg spip w) as [status w1]. cbn [fst snd].
  destruct (Z.land status EEPROM_STATUS_BIT_RDY =? 0); reflexivity.
Qed.

Lemma poll_next_log (spip : SPIDriver) (w : World Dev) :
  exists r0 r1,
    log (poll_next spip w) =
      log w ++ frame [(EEPROM_SPI_READ_STATUS_REG, r0); (0, r1)] ++ [Delay 1] /\
    log (snd (EEPROM_readStatusReg spip w)) =
      log w ++ frame [(EEPROM_SPI_READ_STATUS_REG, r0); (0, r1)] /\
    nth_status 0 spip w = to_uint8 r1.
Proof.
  unfold poll_next, nth_status. cbn [world_at_poll]. drv_run.
  do 2 eexists. log_norm. repeat split; reflexivity.
Qed.

(** If the loop returns, it does so from the first status read that has
    [RDY] clear; the log is that of the reads up to there. *)
Lemma wait_returns_inv (spip : SPIDriver) (fuel : nat) :
  forall (w w' : World Dev),
    EEPROM_wait fuel spip w = Some w' ->
    exists k rs,
      (k < fuel)%nat /\
      length rs = S k /\
      (forall i, (i < k)%nat -> rdy_set (nth_status i spip w) = true) /\
      rdy_set (nth_status k spip w) = false /\
      w' = snd (EEPROM_readStatusReg spip (world_at_poll k spip w)) /\
      log w' = log w ++ poll_trace rs /\
      (forall i, (i <= k)%nat ->
         to_uint8 (snd (nth i rs (0, 0))) = nth_status i spip w).
Proof.
  induction fuel as [| fuel IH]; intros w w' H; [discriminate |].
  rewrite wait_S in H.
  destruct (poll_next_log spip w) as (r0 & r1 & Hnext & Hread & Hst).
  destruct (rdy_set (nth_status 0 spip w)) eqn:Hrdy.
  - destruct (IH _ _ H) as (k & rs & Hk & Hlen & Hset & Hclr & Hw & Hlog & Hrs).
    exists (S k), ((r0, r1) :: rs).
    split; [lia |]. split; [cbn; lia |].
    split.
    { intros [| i] Hi; [exact Hrdy | apply Hset; lia]. }
    split; [exact Hclr |]. split; [exact Hw |].
    split.
    { rewrite Hlog, Hnext. destruct rs as [| r rs]; [discriminate |].
      cbn [poll_trace fst snd]. now rewrite <- !app_assoc. }
    intros [| i] Hi; [cbn; now rewrite Hst | apply Hrs; lia].
  - injection H as <-.
    exists 0%nat, [(r0, r1)].
    split; [lia |]. split; [reflexivity |].
    split; [intros i Hi; lia |].
    split; [exact Hrdy |]. split; [reflexivity |].
    split; [rewrite Hread; cbn [poll_trace fst snd]; now rewrite app_nil_r |].
    intros i Hi. replace i with 0%nat by lia. cbn. now rewrite Hst.
Qed.

(** Busy for [k] reads and then ready: the loop returns from read [k], given
    fuel for [k + 1] reads. *)
Lemma wait_returns (spip : SPIDriver) (k : nat) :
  forall (fuel : nat) (w : World Dev),
    (forall i, (i < k)%nat -> rdy_set (nth_status i spip w) = true) ->
    rdy_set (nth_status k spip w) = false ->
    (k < fuel)%nat ->
    EEPROM_wait fuel spip w =
    Some (snd (EEPROM_readStatusReg spip (world_at_poll k spip w))).
Proof.
  induction k as [| k IH]; intros fuel w Hset Hclr Hfuel;
    (destruct fuel as [| fuel]; [lia |]); rewrite wait_S.
  - now rewrite Hclr.
  - rewrite (Hset 0%nat) by lia.
    apply IH; [| exact Hclr | lia].
    intros i Hi. apply (Hset (S i)). lia.
Qed.

(** Busy on each of the first [fuel] reads: the loop is still running. *)
Lemma wait_still_busy (spip : SPIDriver) (fuel : nat) :
  forall (w : World Dev),
    (forall i, (i < fuel)%nat -> rdy_set (nth_status i spip w) = true) ->
    EEPROM_wait fuel spip w = None.
Proof.
  induction fuel as [| fuel IH]; intros w Hset; [reflexivity |].
  rewrite wait_S, (Hset 0%nat) by lia.
  apply IH. intros i Hi. apply (Hset (S i)). lia.
Qed.

Lemma poll_trace_cs_level (rs : list (Z * Z)) :
  rs <> [] -> forall t, cs_level (t ++ poll_trace rs) = Some true.
Proof.
  induction rs as [| r rs IH]; intros Hne t; [contradiction |].
  destruct rs as [| r' rs].
  - cbn [poll_trace]. rewrite app_nil_r. apply cs_level_frame.
  - change (poll_trace (r :: r' :: rs))
      with (frame [(EEPROM_SPI_READ_STATUS_REG, fst r); (0, snd r)] ++
            [Delay 1] ++ poll_trace (r' :: rs)).
    rewrite !app_assoc. apply IH. discriminate.
Qed.

Lemma poll_trace_transactions (rs : list (Z * Z)) :
  transactions (poll_trace rs) = length rs.
Proof.
  induction rs as [| r rs IH]; [reflexivity |].
  cbn [poll_trace length]. rewrite transactions_app, transactions_frame.
  destruct rs as [| r' rs]; [reflexivity |].
  change (transactions (Delay 1 :: poll_trace (r' :: rs)))
    with (transactions (poll_trace (r' :: rs))).
  now rewrite IH.
Qed.

Lemma frame_released (t : list event) (xs : list (Z * Z)) :
  cs_released 1 t (t ++ frame xs).
Proof.
  split; [apply cs_level_frame |].
  exists (frame xs). split; [reflexivity | apply pad_events_frame].
Qed.

Lemma poll_trace_pad_events (rs : list (Z * Z)) :
  pad_events (poll_trace rs) = cs_pairs (length rs).
Proof.
  induction rs as [| r rs IH]; [reflexivity |].
  cbn [poll_trace length]. unfold pad_events in *.
  rewrite filter_app. fold (pad_events (frame [(EEPROM_SPI_READ_STATUS_REG, fst r); (0, snd r)])).
  rewrite pad_events_frame.
  destruct rs as [| r' rs]; [reflexivity |].
  cbn [filter is_pad_event]. rewrite IH. reflexivity.
Qed.

Lemma readRange_zero (spip : SPIDriver) (startAddr data : Z) (w : World Dev) :
  ram (snd (EEPROM_readRange spip startAddr data 0 w)) = ram w /\
  stores (snd (EEPROM_readRange spip startAddr data 0 w)) = stores w.
Proof. drv_run. cbn. split; reflexivity. Qed.

Lemma map_eq_seq {A : Type} (f : A -> Z) (g : nat -> Z) (d : A) (l : list A) :
  (forall i, (i < length l)%nat -> f (nth i l d) = g i) ->
  map f l = map g (seq 0 (length l)).
Proof.
  revert g. induction l as [| x l IH]; intros g Hg; [reflexivity |].
  cbn [length seq map]. rewrite <- seq_shift, map_map.
  f_equal.
  - apply (Hg 0%nat). cbn; lia.
  - apply IH. intros i Hi. apply (Hg (S i)). cbn; lia.
Qed.

Lemma map_seq_nth (f : nat -> Z) (rs : list Z) :
  (forall j, (j < length rs)%nat -> f j = to_uint8 (nth j rs 0)) ->
  map f (seq 0 (length rs)) = map to_uint8 rs.
Proof.
  revert f. induction rs as [| r rs IH]; intros f Hf; [reflexivity |].
  cbn [length seq map]. rewrite <- seq_shift, map_map.
  f_equal.
  - apply (Hf 0%nat). cbn; lia.
  - apply IH. intros j Hj. apply (Hf (S j)). cbn; lia.
Qed.

(** The log of a poll that returned: reads with [RDY] set, then one with
    [RDY] clear. *)
Lemma wait_returns_trace (spip : SPIDriver) (fuel : nat) :
  forall (w w' : World Dev),
    EEPROM_wait fuel spip w = Some w' ->
    exists rs s,
      (length rs < fuel)%nat /\
      log w' = log w ++ poll_trace (rs ++ [s]) /\
      rdy_set (to_uint8 (snd s)) = false /\
      Forall (fun r => rdy_set (to_uint8 (snd r)) = true) rs.
Proof.
  induction fuel as [| fuel IH]; intros w w' H; [discriminate |].
  rewrite wait_S in H.
  destruct (poll_next_log spip w) as (r0 & r1 & Hnext & Hread & Hst).
  rewrite Hst in H.
  destruct (rdy_set (to_uint8 r1)) eqn:Hrdy.
  - destruct (IH _ _ H) as (rs & s & Hlen & Hlog & Hs & Hrs).
    exists ((r0, r1) :: rs), s.
    split; [cbn; lia |]. split.
    + rewrite Hlog, Hnext. cbn [app poll_trace fst snd].
      destruct (rs ++ [s]) as [| x xs] eqn:E.
      * destruct rs; discriminate.
      * now rewrite <- !app_assoc.
    + split; [exact Hs |]. constructor; [exact Hrdy | exact Hrs].
  - injection H as <-.
    exists [], (r0, r1).
    split; [cbn; lia |]. split.
    + rewrite Hread. cbn [app poll_trace fst snd]. now rewrite app_nil_r.
    + split; [exact Hrdy | constructor].
Qed.

End DriverFacts.

(** ** The driver on the chip *)

Section ChipFacts.

Local Arguments addr_high : simpl never.
Local Arguments addr_low : simpl never.
Local Arguments to_uint8 : simpl never.
Local Arguments Chip.address : simpl never.
Local Arguments Chip.protected : simpl never.
Local Arguments Chip.status : simpl never.

Ltac chip_run :=
  unfold EEPROM_enableWrite, EEPROM_disableWrite, EEPROM_readStatusReg,
    EEPROM_writeStatusReg, EEPROM_readByte, EEPROM_writeByte,
    EEPROM_setChipSelect, EEPROM_clearChipSelect, delay_us,
    EEPROM_exchangeSpi, bind, ret, emit;
  cbn.

Ltac chip_open w Hidle :=
  let Hs := fresh "Hs" in
  let Hb := fresh "Hb" in
  destruct w as [[sel rb m wl sr b tw] r s l];
  destruct Hidle as [Hs Hb]; cbn in Hs, Hb; subst sel b.

Lemma chip_status_rdy (c : Chip.state) :
  Z.land (to_uint8 (Chip.status c)) EEPROM_STATUS_BIT_RDY =
  if Nat.eqb (Chip.busy c) 0 then 0 else 1.
Proof.
  unfold to_uint8, EEPROM_STATUS_BIT_RDY.
  change 0x01 with (Z.ones 1).
  rewrite Z.land_ones by lia.
  change (2 ^ 1) with 2.
  rewrite <- Z.bit0_mod, Z.mod_pow2_bits_low by lia.
  unfold Chip.status.
  rewrite !Z.lor_spec, Z.land_spec.
  change (Z.testbit Chip.stored_bits 0) with false.
  rewrite andb_false_r, orb_false_r.
  destruct (Nat.eqb (Chip.busy c) 0), (Chip.wel c); reflexivity.
Qed.

Lemma chip_enableWrite (w : World Chip.state) :
  Chip.idle (dev w) ->
  dev (snd (EEPROM_enableWrite (hal := Chip.chip_hal) tt w)) =
  Chip.mk false [] (Chip.mem (dev w)) true (Chip.sreg (dev w)) 0
          (Chip.t_write (dev w)).
Proof. intros Hidle. chip_open w Hidle. chip_run. reflexivity. Qed.

Lemma chip_writeByte (w : World Chip.state) (a v : Z) :
  Chip.idle (dev w) ->
  Chip.wel (dev w) = true ->
  Chip.protected (dev w) a = false ->
  0 <= a < 2 ^ 16 ->
  dev (snd (EEPROM_writeByte (hal := Chip.chip_hal) tt a v w)) =
  Chip.mk false [] (fun q => if q =? a then v else Chip.mem (dev w) q)
          false (Chip.sreg (dev w)) (Chip.t_write (dev w))
          (Chip.t_write (dev w)).
Proof.
  intros Hidle Hwel Hprot Ha. chip_open w Hidle.
  cbn in Hwel, Hprot |- *. subst wl.
  chip_run.
  unfold Chip.address. rewrite addr_recombine.
  change 65536 with (2 ^ 16). rewrite Z.mod_small by exact Ha.
  unfold Chip.protected in Hprot |- *. cbn [Chip.sreg] in Hprot |- *.
  rewrite Hprot. reflexivity.
Qed.

Lemma chip_readStatusReg (w : World Chip.state) :
  Chip.selected (dev w) = false ->
  rdy_set (fst (EEPROM_readStatusReg (hal := Chip.chip_hal) tt w)) =
    negb (Nat.eqb (Chip.busy (dev w)) 0) /\
  dev (snd (EEPROM_readStatusReg (hal := Chip.chip_hal) tt w)) =
    Chip.mk false [] (Chip.mem (dev w)) (Chip.wel (dev w)) (Chip.sreg (dev w))
            (Chip.busy (dev w)) (Chip.t_write (dev w)).
Proof.
  destruct w as [[sel rb m wl sr b tw] r s l]. cbn. intros ->.
  split.
  - chip_run. unfold rdy_set. rewrite chip_status_rdy. cbn [Chip.busy].
    destruct (Nat.eqb b 0); reflexivity.
  - chip_run. destruct b; reflexivity.
Qed.

Lemma chip_poll_next (w : World Chip.state) :
  Chip.selected (dev w) = false ->
  dev (poll_next (hal := Chip.chip_hal) tt w) =
    Chip.mk false [] (Chip.mem (dev w)) (Chip.wel (dev w)) (Chip.sreg (dev w))
            (Chip.busy (dev w) - 1) (Chip.t_write (dev w)).
Proof.
  intros Hs. unfold poll_next, delay_us, emit. cbn [snd dev].
  destruct (chip_readStatusReg w Hs) as [_ ->]. reflexivity.
Qed.

(** On a chip with [n] microseconds of its write cycle left, the poller
    returns from status read [n], and the chip is ready. *)
Lemma chip_wait (n : nat) :
  forall (fuel : nat) (w : World Chip.state),
    Chip.selected (dev w) = false ->
    Chip.busy (dev w) = n ->
    (n < fuel)%nat ->
    exists w',
      EEPROM_wait (hal := Chip.chip_hal) fuel tt w = Some w' /\
      dev w' = Chip.mk false [] (Chip.mem (dev w)) (Chip.wel (dev w))
                       (Chip.sreg (dev w)) 0 (Chip.t_write (dev w)) /\
      transactions (log w') =
        (transactions (log w) + S n)%nat.
Proof.
  induction n as [| n IH]; intros fuel w Hs Hb Hfuel;
    (destruct fuel as [| fuel]; [lia |]); rewrite wait_S;
    unfold nth_status; cbn [world_at_poll];
    destruct (chip_readStatusReg w Hs) as [Hrdy Hdev];
    destruct (readStatusReg_log (hal := Chip.chip_hal) tt w)
      as (r0 & r1 & Hlog & _);
    rewrite Hrdy, Hb; cbn [Nat.eqb negb].
  - eexists. split; [reflexivity |]. split.
    + rewrite Hdev, Hb. reflexivity.
    + rewrite Hlog, transactions_app, transactions_frame. reflexivity.
  - pose proof (chip_poll_next w Hs) as Hnext.
    destruct (IH fuel (poll_next (hal := Chip.chip_hal) tt w))
      as (w' & Hw & Hd & Htr).
    + rewrite Hnext. reflexivity.
    + rewrite Hnext, Hb. cbn. lia.
    + lia.
    + exists w'. split; [exact Hw |]. split.
      * rewrite Hd, Hnext. reflexivity.
      * rewrite Htr. unfold poll_next, delay_us, emit. cbn [snd log].
        rewrite Hlog, !transactions_app, transactions_frame. cbn. lia.
Qed.

Lemma chip_readByte (w : World Chip.state) (a : Z) :
  Chip.idle (dev w) ->
  0 <= a < 2 ^ 16 ->
  fst (EEPROM_readByte (hal := Chip.chip_hal) tt a w) =
    to_uint8 (Chip.mem (dev w) a) /\
  dev (snd (EEPROM_readByte (hal := Chip.chip_hal) tt a w)) =
    Chip.mk false [] (Chip.mem (dev w)) (Chip.wel (dev w)) (Chip.sreg (dev w))
            0 (Chip.t_write (dev w)).
Proof.
  intros Hidle Ha. chip_open w Hidle.
  chip_run.
  unfold Chip.address. rewrite addr_recombine, Z.add_0_r.
  change 65536 with (2 ^ 16). rewrite Z.mod_small by exact Ha.
  split; reflexivity.
Qed.

End ChipFacts.

(* ------------------------------------------------------------------ *)
(** * The properties of the specification *)

(** C2. Address splitting: for every 16-bit address [a], the byte sent
    first, [a >> 8], and the byte sent second, [a & 0xFF], both fit a byte
    and recombine to [a]: [((a >> 8) << 8) | (a & 0xFF) = a]. *)
Theorem address_split_recombines (a : Z) :
  0 <= a < 2 ^ 16 ->
  Z.lor (Z.shiftl (addr_high a) 8) (addr_low a) = a /\
  0 <= addr_high a < 2 ^ 8 /\
  0 <= addr_low a < 2 ^ 8.
Proof.
  intros Ha. split; [apply addr_recombine |].
  split; [apply addr_high_byte; exact Ha | apply addr_low_byte].
Qed.

Lemma address_split_recombines_witness :
  Z.lor (Z.shiftl (addr_high 0xBEEF) 8) (addr_low 0xBEEF) = 0xBEEF /\
  0 <= addr_high 0xBEEF < 2 ^ 8 /\
  0 <= addr_low 0xBEEF < 2 ^ 8.
Proof. apply (address_split_recombines 0xBEEF). lia. Defined.

(** C3. Status decoding: the raw status byte [0b10000101] decodes to
    RDY = 1, WEN = 0, BP = Quarter, WPEN = 1, through the masks of EEPROM.h
    and through the bit-fields of [EEPROM_StatusRegister] as the target lays
    them out; and for every status byte the decode reads RDY from bit 0, WEN
    from bit 1, BP from bits 2-3 and WPEN from bit 7. *)
Theorem status_decode :
  (status_RDY 0x85 = 1 /\
   status_WEN 0x85 = 0 /\
   BlockProtection_of_value (status_BP 0x85) = Some BlockProtection_Quarter /\
   BlockProtection_value BlockProtection_Quarter = 1 /\
   status_WPEN 0x85 = 1 /\
   SR_of_R MsbFirst 0x85 = mkSR 1 0 1 0 1) /\
  (forall r, 0 <= r < 2 ^ 8 ->
     status_RDY r = Z.b2z (Z.testbit r 0) /\
     status_WEN r = Z.b2z (Z.testbit r 1) /\
     status_BP r = Z.b2z (Z.testbit r 2) + 2 * Z.b2z (Z.testbit r 3) /\
     status_WPEN r = Z.b2z (Z.testbit r 7) /\
     RDY (SR_of_R MsbFirst r) = status_RDY r /\
     WEN (SR_of_R MsbFirst r) = status_WEN r /\
     BP (SR_of_R MsbFirst r) = status_BP r /\
     WPEN (SR_of_R MsbFirst r) = status_WPEN r).
Proof.
  split; [repeat split |].
  intros r Hr. pose proof (layout_ok_byte r Hr) as H.
  unfold layout_ok in H.
  repeat (apply andb_true_iff in H; destruct H as [H ?]).
  repeat split; apply Z.eqb_eq; assumption.
Qed.

Lemma status_decode_witness :
  status_BP 0x85 = Z.b2z (Z.testbit 0x85 2) + 2 * Z.b2z (Z.testbit 0x85 3) /\
  BP (SR_of_R MsbFirst 0x85) = status_BP 0x85.
Proof.
  destruct (proj2 status_decode 0x85) as (_ & _ & Hbp & _ & _ & _ & Hb & _).
  - lia.
  - split; [exact Hbp | exact Hb].
Defined.

Section Claims.

Context {SPIDriver SPIConfig Dev : Type} {hal : HAL SPIDriver SPIConfig Dev}.

(** C1. Frame shape: each of enable-write, disable-write, read-status,
    write-status, read-byte, write-byte, read-range and write-range adds to
    the log exactly one frame - one chip-select assertion, the exchanges,
    one de-assertion - and the first byte exchanged in it is the opcode
    0x06, 0x04, 0x05, 0x01, 0x03, 0x02, 0x03, 0x02 respectively. *)
Theorem frame_shape (spip : SPIDriver) (w : World Dev)
  (addr cmd v startAddr data : Z) (N : nat) :
  one_frame 0x06 (log w) (log (snd (EEPROM_enableWrite spip w))) /\
  one_frame 0x04 (log w) (log (snd (EEPROM_disableWrite spip w))) /\
  one_frame 0x05 (log w) (log (snd (EEPROM_readStatusReg spip w))) /\
  one_frame 0x01 (log w) (log (snd (EEPROM_writeStatusReg spip cmd w))) /\
  one_frame 0x03 (log w) (log (snd (EEPROM_readByte spip addr w))) /\
  one_frame 0x02 (log w) (log (snd (EEPROM_writeByte spip addr v w))) /\
  one_frame 0x03 (log w)
    (log (snd (EEPROM_readRange spip startAddr data (Z.of_nat N) w))) /\
  one_frame 0x02 (log w)
    (log (snd (EEPROM_writeRange spip startAddr data (Z.of_nat N) w))).
Proof.
  unfold one_frame.
  split; [destruct (enableWrite_log spip w) as (r & H); eauto |].
  split; [destruct (disableWrite_log spip w) as (r & H); eauto |].
  split; [destruct (readStatusReg_log spip w) as (r0 & r1 & H & _); eauto |].
  split; [destruct (writeStatusReg_log spip cmd w) as (r0 & r1 & H); eauto |].
  split; [destruct (readByte_log spip addr w)
            as (r0 & r1 & r2 & r3 & H & _); eauto |].
  split; [destruct (writeByte_log spip addr v w)
            as (r0 & r1 & r2 & r3 & H); eauto |].
  split.
  - destruct (readRange_spec spip startAddr data N w)
      as (r0 & r1 & r2 & rs & _ & H & _); eauto.
  - destruct (writeRange_spec spip startAddr data N w)
      as (r0 & r1 & r2 & rs & _ & H & _); eauto.
Qed.

(** C7. Range frames: read-range of [N] bytes from [startAddr] exchanges,
    in one frame, opcode 0x03, the high and the low address byte, and then
    exactly [N] dummy bytes 0x00, and the bytes returned for these are the
    data left in the buffer; write-range exchanges, in one frame, opcode
    0x02, the high and the low address byte, and then the [N] buffer bytes
    [data[0]], [data[1]], ... in that order. *)
Theorem range_frames (spip : SPIDriver) (w : World Dev)
  (startAddr data : Z) (N : nat) :
  (exists r0 r1 r2 rs,
     length rs = N /\
     log (snd (EEPROM_readRange spip startAddr data (Z.of_nat N) w)) =
       log w ++ frame ((0x03, r0) :: (addr_high startAddr, r1) ::
                       (addr_low startAddr, r2) ::
                       map (fun r => (0x00, r)) rs) /\
     map (fun j => ram (snd (EEPROM_readRange spip startAddr data
                               (Z.of_nat N) w)) (data + Z.of_nat j))
         (seq 0 N) = map to_uint8 rs) /\
  (exists r0 r1 r2 rs,
     length rs = N /\
     log (snd (EEPROM_writeRange spip startAddr data (Z.of_nat N) w)) =
       log w ++ frame ((0x02, r0) :: (addr_high startAddr, r1) ::
                       (addr_low startAddr, r2) ::
                       combine (map (fun j => ram w (data + Z.of_nat j))
                                    (seq 0 N))
                               rs)).
Proof.
  split.
  - destruct (readRange_spec spip startAddr data N w)
      as (r0 & r1 & r2 & rs & Hlen & Hlog & _ & Hin & _).
    exists r0, r1, r2, rs. split; [exact Hlen |]. split; [exact Hlog |].
    subst N. apply map_seq_nth. exact Hin.
  - destruct (writeRange_spec spip startAddr data N w)
      as (r0 & r1 & r2 & rs & Hlen & Hlog & _).
    exists r0, r1, r2, rs. split; [exact Hlen | exact Hlog].
Qed.

(** C8. Length 0: read-range and write-range with length 0 still assert and
    de-assert chip-select exactly once and exchange exactly three bytes -
    opcode, high address byte, low address byte - with no data byte, and
    read-range with length 0 stores nothing into the caller's buffer. *)
Theorem range_length_zero (spip : SPIDriver) (w : World Dev)
  (startAddr data : Z) :
  (exists r0 r1 r2 t,
     t = frame [(0x03, r0); (addr_high startAddr, r1); (addr_low startAddr, r2)] /\
     log (snd (EEPROM_readRange spip startAddr data 0 w)) = log w ++ t /\
     transactions t = 1%nat /\ exchanges t = 3%nat /\
     pad_events t = [CS_assert; CS_deassert]) /\
  ram (snd (EEPROM_readRange spip startAddr data 0 w)) = ram w /\
  stores (snd (EEPROM_readRange spip startAddr data 0 w)) = stores w /\
  (exists r0 r1 r2 t,
     t = frame [(0x02, r0); (addr_high startAddr, r1); (addr_low startAddr, r2)] /\
     log (snd (EEPROM_writeRange spip startAddr data 0 w)) = log w ++ t /\
     transactions t = 1%nat /\ exchanges t = 3%nat /\
     pad_events t = [CS_assert; CS_deassert]) /\
  ram (snd (EEPROM_writeRange spip startAddr data 0 w)) = ram w /\
  stores (snd (EEPROM_writeRange spip startAddr data 0 w)) = stores w.
Proof.
  destruct (readRange_spec spip startAddr data 0 w)
    as (r0 & r1 & r2 & rs & Hlen & Hlog & _).
  destruct (writeRange_spec spip startAddr data 0 w)
    as (q0 & q1 & q2 & qs & Hlen' & Hlog' & Hst' & Hram').
  destruct rs; [| discriminate]. destruct qs; [| discriminate].
  change (Z.of_nat 0) with 0 in *. cbn [map combine seq] in Hlog, Hlog'.
  split.
  { exists r0, r1, r2. eexists. split; [reflexivity |].
    split; [exact Hlog |].
    split; [apply transactions_frame |].
    split; [apply exchanges_frame | apply pad_events_frame]. }
  split; [apply readRange_zero |]. split; [apply readRange_zero |].
  split.
  { exists q0, q1, q2. eexists. split; [reflexivity |].
    split; [exact Hlog' |].
    split; [apply transactions_frame |].
    split; [apply exchanges_frame | apply pad_events_frame]. }
  split; assumption.
Qed.

(** C10. Buffer effects: read-range with buffer [data] and length [N]
    stores to exactly [data[0]], ..., [data[N-1]], in increasing index
    order, [data[i]] receiving the byte returned by the [(i+1)]-th dummy
    exchange after the address bytes; memory outside these [N] entries is as
    before; write-range stores nothing and leaves the caller's memory as it
    was. *)
Theorem range_buffer_effects (spip : SPIDriver) (w : World Dev)
  (startAddr data : Z) (N : nat) :
  (exists r0 r1 r2 rs,
     length rs = N /\
     log (snd (EEPROM_readRange spip startAddr data (Z.of_nat N) w)) =
       log w ++ frame ((0x03, r0) :: (addr_high startAddr, r1) ::
                       (addr_low startAddr, r2) ::
                       map (fun r => (0x00, r)) rs) /\
     stores (snd (EEPROM_readRange spip startAddr data (Z.of_nat N) w)) =
       stores w ++
       map (fun i => (data + Z.of_nat i, to_uint8 (nth i rs 0))) (seq 0 N) /\
     (forall p,
        ram (snd (EEPROM_readRange spip startAddr data (Z.of_nat N) w)) p =
        if (data <=? p) && (p <? data + Z.of_nat N)
        then to_uint8 (nth (Z.to_nat (p - data)) rs 0)
        else ram w p)) /\
  stores (snd (EEPROM_writeRange spip startAddr data (Z.of_nat N) w)) =
    stores w /\
  ram (snd (EEPROM_writeRange spip startAddr data (Z.of_nat N) w)) = ram w.
Proof.
  split.
  - destruct (readRange_spec spip startAddr data N w)
      as (r0 & r1 & r2 & rs & Hlen & Hlog & Hst & Hin & Hout).
    exists r0, r1, r2, rs. split; [exact Hlen |]. split; [exact Hlog |].
    split.
    + rewrite Hst, buffer_stores_seq, Hlen. f_equal.
      apply map_ext; intros j. now rewrite Z.add_0_r.
    + intros p.
      destruct (Z.leb_spec data p) as [Hlo | Hlo];
        destruct (Z.ltb_spec p (data + Z.of_nat N)) as [Hhi | Hhi];
        cbn [andb]; try (apply Hout; lia).
      replace p with (data + Z.of_nat (Z.to_nat (p - data))) at 1 by lia.
      apply Hin. lia.
  - destruct (writeRange_spec spip startAddr data N w)
      as (r0 & r1 & r2 & rs & _ & _ & Hst & Hram).
    split; assumption.
Qed.

(** C9. Chip-select is released: each command asserts chip-select with
    [pal_lld_clearpad] once, de-asserts it with [pal_lld_setpad] once, in
    that order, and so returns with the pad high; [EEPROM_wait], when it
    returns, has done the same once per status read and returns with the pad
    high. *)
Theorem chip_select_released (spip : SPIDriver) (w : World Dev)
  (addr cmd v startAddr data : Z) (N : nat) :
  cs_released 1 (log w) (log (snd (EEPROM_enableWrite spip w))) /\
  cs_released 1 (log w) (log (snd (EEPROM_disableWrite spip w))) /\
  cs_released 1 (log w) (log (snd (EEPROM_readStatusReg spip w))) /\
  cs_released 1 (log w) (log (snd (EEPROM_writeStatusReg spip cmd w))) /\
  cs_released 1 (log w) (log (snd (EEPROM_readByte spip addr w))) /\
  cs_released 1 (log w) (log (snd (EEPROM_writeByte spip addr v w))) /\
  cs_released 1 (log w)
    (log (snd (EEPROM_readRange spip startAddr data (Z.of_nat N) w))) /\
  cs_released 1 (log w)
    (log (snd (EEPROM_writeRange spip startAddr data (Z.of_nat N) w))) /\
  (forall fuel w',
     EEPROM_wait fuel spip w = Some w' ->
     exists k, (k < fuel)%nat /\ cs_released (S k) (log w) (log w')).
Proof.
  split; [destruct (enableWrite_log spip w) as (r & H);
          rewrite H; apply frame_released |].
  split; [destruct (disableWrite_log spip w) as (r & H);
          rewrite H; apply frame_released |].
  split; [destruct (readStatusReg_log spip w) as (r0 & r1 & H & _);
          rewrite H; apply frame_released |].
  split; [destruct (writeStatusReg_log spip cmd w) as (r0 & r1 & H);
          rewrite H; apply frame_released |].
  split; [destruct (readByte_log spip addr w) as (r0 & r1 & r2 & r3 & H & _);
          rewrite H; apply frame_released |].
  split; [destruct (writeByte_log spip addr v w) as (r0 & r1 & r2 & r3 & H);
          rewrite H; apply frame_released |].
  split; [destruct (readRange_spec spip startAddr data N w)
            as (r0 & r1 & r2 & rs & _ & H & _);
          rewrite H; apply frame_released |].
  split; [destruct (writeRange_spec spip startAddr data N w)
            as (r0 & r1 & r2 & rs & _ & H & _);
          rewrite H; apply frame_released |].
  intros fuel w' Hw.
  destruct (wait_returns_inv spip fuel w w' Hw)
    as (k & rs & Hk & Hlen & _ & _ & _ & Hlog & _).
  exists k. split; [exact Hk |]. split.
  - rewrite Hlog. apply poll_trace_cs_level. destruct rs; discriminate.
  - exists (poll_trace rs). split; [exact Hlog |].
    rewrite poll_trace_pad_events, Hlen. reflexivity.
Qed.

(** C4. Poller termination: if the status reads of a poll started in [w]
    return [RDY] set exactly for the first [k] and [RDY] clear for read
    [k + 1], then [EEPROM_wait] returns, having performed exactly [k + 1]
    read-status transactions, with a delay of 1 microsecond after each of
    the first [k]. *)
Theorem wait_polls_until_ready (k : nat) (spip : SPIDriver) (w : World Dev)
  (fuel : nat) :
  (forall i, (i < k)%nat -> rdy_set (nth_status i spip w) = true) ->
  rdy_set (nth_status k spip w) = false ->
  (k < fuel)%nat ->
  exists w' rs,
    EEPROM_wait fuel spip w = Some w' /\
    length rs = S k /\
    log w' = log w ++ poll_trace rs /\
    transactions (log w') = (transactions (log w) + S k)%nat /\
    map (fun r => to_uint8 (snd r)) rs =
      map (fun i => nth_status i spip w) (seq 0 (S k)).
Proof.
  intros Hset Hclr Hfuel.
  pose proof (wait_returns spip k fuel w Hset Hclr Hfuel) as Hw.
  destruct (wait_returns_inv spip fuel w _ Hw)
    as (k' & rs & _ & Hlen & Hset' & Hclr' & _ & Hlog & Hrs).
  assert (k' = k) as ->.
  { destruct (Nat.lt_trichotomy k' k) as [Hlt | [Heq | Hgt]].
    - rewrite (Hset k' Hlt) in Hclr'. discriminate.
    - exact Heq.
    - rewrite (Hset' k Hgt) in Hclr. discriminate. }
  eexists. exists rs. split; [exact Hw |]. split; [exact Hlen |].
  split; [exact Hlog |]. split.
  - rewrite Hlog, transactions_app, poll_trace_transactions, Hlen. reflexivity.
  - rewrite <- Hlen. apply (map_eq_seq _ _ (0, 0)).
    intros i Hi. apply Hrs. lia.
Qed.

(** C6. No bound on the poll: [EEPROM_wait] returns only from a status read
    with [RDY] clear, all reads before it having had [RDY] set and each
    being followed by a delay of 1 microsecond; while the reads keep
    returning [RDY] set it goes on polling, however many reads that takes,
    and if every read returns [RDY] set it never returns. *)
Theorem wait_has_no_bound (spip : SPIDriver) (w : World Dev) :
  (forall fuel w',
     EEPROM_wait fuel spip w = Some w' ->
     exists rs s,
       (length rs < fuel)%nat /\
       log w' = log w ++ poll_trace (rs ++ [s]) /\
       rdy_set (to_uint8 (snd s)) = false /\
       Forall (fun r => rdy_set (to_uint8 (snd r)) = true) rs) /\
  (forall fuel,
     (forall i, (i < fuel)%nat -> rdy_set (nth_status i spip w) = true) ->
     EEPROM_wait fuel spip w = None) /\
  ((forall i, rdy_set (nth_status i spip w) = true) ->
   forall fuel, EEPROM_wait fuel spip w = None).
Proof.
  split; [intros fuel w'; apply wait_returns_trace |].
  split; [intros fuel; apply wait_still_busy |].
  intros Hset fuel. apply wait_still_busy. intros i _. apply Hset.
Qed.

End Claims.

(** ** On the devices *)

(** C5. Round trip: on the chip at rest, with address [a] outside the
    protected block, enable-write, then write-byte of [v] at [a], then the
    wait for completion, then read-byte at [a] returns [v]; the wait
    returns once the write cycle is over. *)
Theorem write_read_round_trip (w : World Chip.state) (a v : Z) (fuel : nat) :
  Chip.idle (dev w) ->
  Chip.protected (dev w) a = false ->
  0 <= a < 2 ^ 16 ->
  0 <= v < 2 ^ 8 ->
  (Chip.t_write (dev w) < fuel)%nat ->
  exists w',
    write_then_read (hal := Chip.chip_hal) fuel tt a v w = Some (v, w') /\
    Chip.mem (dev w') a = v /\
    Chip.idle (dev w').
Proof.
  intros Hidle Hprot Ha Hv Hfuel.
  unfold write_then_read.
  set (w1 := snd (EEPROM_enableWrite tt w)).
  pose proof (chip_enableWrite w Hidle) as H1. fold w1 in H1.
  set (w2 := snd (EEPROM_writeByte tt a v w1)).
  assert (Hidle1 : Chip.idle (dev w1)) by (rewrite H1; split; reflexivity).
  assert (Hwel1 : Chip.wel (dev w1) = true) by (rewrite H1; reflexivity).
  assert (Hprot1 : Chip.protected (dev w1) a = false)
    by (rewrite H1; exact Hprot).
  pose proof (chip_writeByte w1 a v Hidle1 Hwel1 Hprot1 Ha) as H2.
  fold w2 in H2. rewrite H1 in H2.
  cbn [Chip.mem Chip.sreg Chip.t_write] in H2.
  destruct (chip_wait (Chip.t_write (dev w)) fuel w2)
    as (w3 & Hw3 & Hd3 & _); [now rewrite H2 | now rewrite H2 | exact Hfuel |].
  rewrite Hw3. rewrite H2 in Hd3. cbn [Chip.mem Chip.wel Chip.sreg Chip.t_write] in Hd3.
  destruct (chip_readByte w3 a) as [Hval Hd4];
    [rewrite Hd3; split; reflexivity | exact Ha |].
  destruct (EEPROM_readByte tt a w3) as [x w4]. cbn [fst snd] in Hval, Hd4.
  exists w4. rewrite Hd3 in Hval, Hd4. cbn [Chip.mem] in Hval, Hd4.
  rewrite Z.eqb_refl in Hval. rewrite to_uint8_byte in Hval by exact Hv.
  subst x. split; [reflexivity |].
  rewrite Hd4. cbn. rewrite Z.eqb_refl. split; [reflexivity | split; reflexivity].
Qed.

Lemma write_read_round_trip_witness :
  exists w',
    write_then_read (hal := Chip.chip_hal) 6 tt 0x0123 0xA5
      (Chip.world (Chip.fresh Chip.blank 5)) = Some (0xA5, w') /\
    Chip.mem (dev w') 0x0123 = 0xA5 /\
    Chip.idle (dev w').
Proof.
  apply (write_read_round_trip (Chip.world (Chip.fresh Chip.blank 5))
           0x0123 0xA5 6).
  - split; reflexivity.
  - reflexivity.
  - lia.
  - lia.
  - cbn. lia.
Defined.

Lemma wait_polls_until_ready_witness :
  exists w' rs,
    EEPROM_wait (hal := Chip.chip_hal) 10 tt
      (Chip.world (Chip.writing Chip.blank 3)) = Some w' /\
    length rs = 4%nat /\
    log w' = log (Chip.world (Chip.writing Chip.blank 3)) ++
             poll_trace (hal := Chip.chip_hal) rs /\
    transactions (log w') =
      (transactions (log (Chip.world (Chip.writing Chip.blank 3))) + 4)%nat /\
    map (fun r => to_uint8 (snd r)) rs =
      map (fun i => nth_status (hal := Chip.chip_hal) i tt
                      (Chip.world (Chip.writing Chip.blank 3)))
          (seq 0 4).
Proof.
  apply (wait_polls_until_ready (hal := Chip.chip_hal) 3 tt
           (Chip.world (Chip.writing Chip.blank 3)) 10).
  - intros i Hi.
    destruct i as [| [| [| i]]]; [vm_compute; reflexivity .. | lia].
  - vm_compute; reflexivity.
  - lia.
Defined.

(** The poller on the chip, 0 and 50 microseconds before the end of a write
    cycle: 1 and 51 status reads. *)
Example wait_polls_chip_0 :
  option_map (fun w' => transactions (log w'))
    (EEPROM_wait (hal := Chip.chip_hal) 100 tt
       (Chip.world (Chip.writing Chip.blank 0))) = Some 1%nat.
Proof. vm_compute; reflexivity. Qed.

Example wait_polls_chip_50 :
  option_map (fun w' => transactions (log w'))
    (EEPROM_wait (hal := Chip.chip_hal) 100 tt
       (Chip.world (Chip.writing Chip.blank 50))) = Some 51%nat.
Proof. vm_compute; reflexivity. Qed.

Lemma nochip_always_busy (i : nat) (w : World unit) :
  rdy_set (nth_status (hal := NoChip.nochip_hal) i tt w) = true.
Proof.
  unfold nth_status.
  generalize (world_at_poll (hal := NoChip.nochip_hal) i tt w).
  intros w'. reflexivity.
Qed.

Lemma wait_has_no_bound_witness :
  EEPROM_wait (hal := NoChip.nochip_hal) 1000 tt NoChip.world = None.
Proof.
  apply (proj2 (proj2 (wait_has_no_bound (hal := NoChip.nochip_hal) tt
                         NoChip.world))).
  intros i. apply nochip_always_busy.
Defined.

Lemma chip_select_released_witness :
  match EEPROM_wait (hal := Chip.chip_hal) 5 tt
          (Chip.world (Chip.writing Chip.blank 2)) with
  | Some w' =>
      exists k, (k < 5)%nat /\
                cs_released (hal := Chip.chip_hal) (S k) [] (log w')
  | None => False
  end.
Proof.
  destruct (EEPROM_wait (hal := Chip.chip_hal) 5 tt
              (Chip.world (Chip.writing Chip.blank 2))) as [w' |] eqn:E.
  - destruct (chip_select_released (hal := Chip.chip_hal) tt
                (Chip.world (Chip.writing Chip.blank 2)) 0 0 0 0 0 0)
      as (_ & _ & _ & _ & _ & _ & _ & _ & H).
    exact (H 5%nat w' E).
  - vm_compute in E. discriminate.
Defined.

(* ------------------------------------------------------------------ *)
(** * Further properties of the code *)

(** ** Bit layout *)

Lemma union_ok_all : forallb union_ok all_bytes = true.
Proof. vm_compute; reflexivity. Qed.

Lemma union_ok_byte (r : Z) : 0 <= r < 2 ^ 8 -> union_ok r = true.
Proof.
  intros Hr.
  exact (proj1 (forallb_forall union_ok all_bytes) union_ok_all r
           (in_all_bytes r Hr)).
Qed.

Lemma field_cases (v n : Z) :
  (0 <=? v) && (v <? n) = true -> 0 <= v < n.
Proof. intros H. apply andb_true_iff in H. lia. Qed.

(** X1. The two address bytes determine the address: two different
    addresses differ in the high byte [addr >> 8] or in the low byte
    [addr & 0xFF] that the driver sends. *)
Theorem address_bytes_injective (a b : Z) :
  a <> b ->
  addr_high a <> addr_high b \/ addr_low a <> addr_low b.
Proof.
  intros Hab.
  destruct (Z.eq_dec (addr_high a) (addr_high b)) as [Hh | Hh]; [| now left].
  right. intros Hl. apply Hab.
  rewrite <- (addr_recombine a), <- (addr_recombine b), Hh, Hl.
  reflexivity.
Qed.

Lemma address_bytes_injective_witness :
  addr_high 0x0C07 <> addr_high 0x0D07 \/ addr_low 0x0C07 <> addr_low 0x0D07.
Proof. apply (address_bytes_injective 0x0C07 0x0D07). discriminate. Defined.

(** X2. The union of [EEPROM_StatusRegister] loses nothing: whichever way
    the compiler allocates the bit-fields, reading a byte written to [SR.R]
    through the fields of [SR.B] gives values that fit the fields' widths,
    and writing these back through [SR.B] gives the byte again. *)
Theorem status_register_views_agree (r : Z) :
  0 <= r < 2 ^ 8 ->
  R_of_SR MsbFirst (SR_of_R MsbFirst r) = r /\
  R_of_SR LsbFirst (SR_of_R LsbFirst r) = r /\
  SR_fields_fit (SR_of_R MsbFirst r) = true /\
  SR_fields_fit (SR_of_R LsbFirst r) = true.
Proof.
  intros Hr. pose proof (union_ok_byte r Hr) as H.
  unfold union_ok in H.
  repeat (apply andb_true_iff in H; destruct H as [H ?]).
  repeat split; try assumption; apply Z.eqb_eq; assumption.
Qed.

Lemma status_register_views_agree_witness :
  R_of_SR MsbFirst (SR_of_R MsbFirst 0x8E) = 0x8E /\
  R_of_SR LsbFirst (SR_of_R LsbFirst 0x8E) = 0x8E /\
  SR_fields_fit (SR_of_R MsbFirst 0x8E) = true /\
  SR_fields_fit (SR_of_R LsbFirst 0x8E) = true.
Proof. apply (status_register_views_agree 0x8E). lia. Defined.

(** X3. The other way round: field values that fit their widths, written
    through [SR.B], are read back unchanged from the byte [SR.R], which is a
    byte, in either allocation order. *)
Theorem status_register_fields_round_trip (o : bitfield_order)
  (sr : EEPROM_StatusRegister) :
  SR_fields_fit sr = true ->
  SR_of_R o (R_of_SR o sr) = sr /\ 0 <= R_of_SR o sr < 2 ^ 8.
Proof.
  destruct sr as [wpen unused bp wen rdy]. unfold SR_fields_fit. cbn [WPEN UNUSED BP WEN RDY].
  intros H.
  repeat (apply andb_true_iff in H; destruct H as [H ?]).
  assert (Hwpen : wpen = 0 \/ wpen = 1) by lia.
  assert (Hunused : unused = 0 \/ unused = 1 \/ unused = 2 \/ unused = 3 \/
                    unused = 4 \/ unused = 5 \/ unused = 6 \/ unused = 7) by lia.
  assert (Hbp : bp = 0 \/ bp = 1 \/ bp = 2 \/ bp = 3) by lia.
  assert (Hwen : wen = 0 \/ wen = 1) by lia.
  assert (Hrdy : rdy = 0 \/ rdy = 1) by lia.
  clear - Hwpen Hunused Hbp Hwen Hrdy.
  destruct o;
    repeat match goal with
           | H : _ \/ _ |- _ => destruct H
           end;
    subst; vm_compute; (split; [reflexivity | split; [discriminate | reflexivity]]).
Qed.

Lemma status_register_fields_round_trip_witness :
  SR_of_R MsbFirst (R_of_SR MsbFirst (mkSR 1 0 3 1 0)) = mkSR 1 0 3 1 0 /\
  0 <= R_of_SR MsbFirst (mkSR 1 0 3 1 0) < 2 ^ 8.
Proof.
  apply (status_register_fields_round_trip MsbFirst (mkSR 1 0 3 1 0)).
  reflexivity.
Defined.

(** X4. The BP field of every status byte is the value of one of the four
    enumerators of [EEPROM_BlockProtection], the same whether read through
    the mask or through the bit-field on the target; and an enumerator is
    recovered from its value. *)
Theorem block_protection_field (r : Z) :
  0 <= r < 2 ^ 8 ->
  (exists bp,
     BlockProtection_of_value (status_BP r) = Some bp /\
     BlockProtection_value bp = status_BP r /\
     BlockProtection_value bp = BP (SR_of_R MsbFirst r)) /\
  (forall bp, BlockProtection_of_value (BlockProtection_value bp) = Some bp).
Proof.
  intros Hr. split; [| intros []; reflexivity].
  pose proof (union_ok_byte r Hr) as H. unfold union_ok in H.
  apply andb_true_iff in H. destruct H as [_ H].
  pose proof (layout_ok_byte r Hr) as L. unfold layout_ok in L.
  repeat (apply andb_true_iff in L; destruct L as [L ?]).
  destruct (BlockProtection_of_value (status_BP r)) as [bp |]; [| discriminate].
  exists bp. apply Z.eqb_eq in H.
  assert (Hbp : BP (SR_of_R MsbFirst r) = status_BP r) by (apply Z.eqb_eq; assumption).
  split; [reflexivity |]. split; [rewrite H; exact Hbp | exact H].
Qed.

Lemma block_protection_field_witness :
  exists bp,
    BlockProtection_of_value (status_BP 0x0C) = Some bp /\
    BlockProtection_value bp = status_BP 0x0C /\
    BlockProtection_value bp = BP (SR_of_R MsbFirst 0x0C).
Proof. apply (proj1 (block_protection_field 0x0C ltac:(lia))). Defined.

(** ** The driver on any HAL *)

Lemma added_app {A : Type} (t u : list A) : added t (t ++ u) = u.
Proof.
  unfold added. rewrite skipn_app, skipn_all, Nat.sub_diag. reflexivity.
Qed.

Lemma to_uint8_is_byte (z : Z) : 0 <= to_uint8 z < 2 ^ 8.
Proof. unfold to_uint8. apply Z.mod_pos_bound. lia. Qed.

Lemma is_byte_iff (z : Z) : is_byte z = true <-> 0 <= z < 2 ^ 8.
Proof. unfold is_byte. rewrite andb_true_iff, Z.leb_le, Z.ltb_lt. tauto. Qed.

Section MoreDriverFacts.

Context {SPIDriver SPIConfig Dev : Type} {hal : HAL SPIDriver SPIConfig Dev}.

Ltac cmd_unfold :=
  unfold EEPROM_enableWrite, EEPROM_disableWrite, EEPROM_readStatusReg,
    EEPROM_writeStatusReg, EEPROM_readByte, EEPROM_writeByte,
    EEPROM_readRange, EEPROM_writeRange, EEPROM_startSpi, EEPROM_stopSpi,
    EEPROM_setChipSelect, EEPROM_clearChipSelect, delay_us,
    bind, ret, emit, store8, load8.

Ltac cmd_run :=
  cmd_unfold; repeat (rewrite exchangeSpi_eq; cbn [fst snd dev ram stores log]).

Lemma sent_frame (xs : list (Z * Z)) : sent (frame xs) = map fst xs.
Proof.
  unfold frame, sent. cbn [flat_map CS_assert app].
  induction xs as [| x xs IH]; [reflexivity |].
  cbn [map flat_map app]. now rewrite IH.
Qed.

Lemma received_frame (xs : list (Z * Z)) : received (frame xs) = map snd xs.
Proof.
  unfold frame, received. cbn [flat_map CS_assert app].
  induction xs as [| x xs IH]; [reflexivity |].
  cbn [map flat_map app]. now rewrite IH.
Qed.

Lemma buffer_stores_bytes (data : Z) (rs : list Z) :
  forall i, forallb (fun s => is_byte (snd s)) (buffer_stores data i rs) = true.
Proof.
  induction rs as [| r rs IH]; intros i; [reflexivity |].
  cbn [buffer_stores forallb snd]. rewrite IH, andb_true_r.
  apply is_byte_iff, to_uint8_is_byte.
Qed.

(** X5. What the single-frame commands put on the bus: enable-write sends
    0x06 and nothing else, disable-write 0x04 and nothing else; read-status
    sends 0x05 and a dummy 0 and returns the answer to the dummy; write-status
    sends 0x01 and the new value; read-byte sends 0x03, the high and the low
    address byte and a dummy 0 and returns the answer to the dummy; write-byte
    sends 0x02, the two address bytes and the data byte.  Each does so in one
    transaction. *)
Theorem single_frame_commands (spip : SPIDriver) (w : World Dev)
  (addr cmd v : Z) :
  (sent (added (log w) (log (snd (EEPROM_enableWrite spip w)))) = [0x06] /\
   transactions (added (log w) (log (snd (EEPROM_enableWrite spip w)))) = 1%nat) /\
  (sent (added (log w) (log (snd (EEPROM_disableWrite spip w)))) = [0x04] /\
   transactions (added (log w) (log (snd (EEPROM_disableWrite spip w)))) = 1%nat) /\
  (sent (added (log w) (log (snd (EEPROM_readStatusReg spip w)))) = [0x05; 0x00] /\
   transactions (added (log w) (log (snd (EEPROM_readStatusReg spip w)))) = 1%nat /\
   fst (EEPROM_readStatusReg spip w) =
     to_uint8 (last (received (added (log w)
                                 (log (snd (EEPROM_readStatusReg spip w))))) 0)) /\
  (sent (added (log w) (log (snd (EEPROM_writeStatusReg spip cmd w)))) =
     [0x01; cmd] /\
   transactions (added (log w) (log (snd (EEPROM_writeStatusReg spip cmd w)))) =
     1%nat) /\
  (sent (added (log w) (log (snd (EEPROM_readByte spip addr w)))) =
     [0x03; addr_high addr; addr_low addr; 0x00] /\
   transactions (added (log w) (log (snd (EEPROM_readByte spip addr w)))) = 1%nat /\
   fst (EEPROM_readByte spip addr w) =
     to_uint8 (last (received (added (log w)
                                 (log (snd (EEPROM_readByte spip addr w))))) 0)) /\
  (sent (added (log w) (log (snd (EEPROM_writeByte spip addr v w)))) =
     [0x02; addr_high addr; addr_low addr; v] /\
   transactions (added (log w) (log (snd (EEPROM_writeByte spip addr v w)))) =
     1%nat).
Proof.
  destruct (enableWrite_log spip w) as (e0 & He).
  destruct (disableWrite_log spip w) as (d0 & Hd).
  destruct (readStatusReg_log spip w) as (s0 & s1 & Hs & Hsv).
  destruct (writeStatusReg_log spip cmd w) as (t0 & t1 & Ht).
  destruct (readByte_log spip addr w) as (r0 & r1 & r2 & r3 & Hr & Hrv).
  destruct (writeByte_log spip addr v w) as (u0 & u1 & u2 & u3 & Hu).
  rewrite He, Hd, Hs, Ht, Hr, Hu, Hsv, Hrv, !added_app.
  rewrite !sent_frame, !received_frame, !transactions_frame.
  cbn [map fst snd last]. repeat split.
Qed.

(** X6. Whatever frame the HAL hands back, the driver's results are bytes:
    the values returned by read-status and read-byte, and every value that
    read-range stores into the buffer, lie in [0, 256). *)
Theorem results_are_bytes (spip : SPIDriver) (w : World Dev)
  (addr startAddr data : Z) (N : nat) :
  0 <= fst (EEPROM_readStatusReg spip w) < 2 ^ 8 /\
  0 <= fst (EEPROM_readByte spip addr w) < 2 ^ 8 /\
  forallb (fun s => is_byte (snd s))
    (added (stores w)
       (stores (snd (EEPROM_readRange spip startAddr data (Z.of_nat N) w)))) =
    true /\
  forallb (fun j => is_byte (ram (snd (EEPROM_readRange spip startAddr data
                                        (Z.of_nat N) w)) (data + Z.of_nat j)))
    (seq 0 N) = true.
Proof.
  destruct (readStatusReg_log spip w) as (s0 & s1 & _ & ->).
  destruct (readByte_log spip addr w) as (r0 & r1 & r2 & r3 & _ & ->).
  destruct (readRange_spec spip startAddr data N w)
    as (q0 & q1 & q2 & rs & Hlen & _ & Hst & Hin & _).
  split; [apply to_uint8_is_byte |]. split; [apply to_uint8_is_byte |].
  split.
  - rewrite Hst, added_app. apply buffer_stores_bytes.
  - apply forallb_forall. intros j Hj. apply in_seq in Hj.
    rewrite Hin by lia. apply is_byte_iff, to_uint8_is_byte.
Qed.

(** X7. Read-range of one byte is read-byte: the same calls reach the HAL
    and leave the device in the same state, and the one byte stored, at
    [data[0]], is the value read-byte returns; the rest of the caller's
    memory is untouched. *)
Theorem readRange_one_is_readByte (spip : SPIDriver) (w : World Dev)
  (addr data : Z) :
  log (snd (EEPROM_readRange spip addr data 1 w)) =
    log (snd (EEPROM_readByte spip addr w)) /\
  dev (snd (EEPROM_readRange spip addr data 1 w)) =
    dev (snd (EEPROM_readByte spip addr w)) /\
  stores (snd (EEPROM_readRange spip addr data 1 w)) =
    stores w ++ [(data, fst (EEPROM_readByte spip addr w))] /\
  (forall p, ram (snd (EEPROM_readRange spip addr data 1 w)) p =
             if p =? data then fst (EEPROM_readByte spip addr w) else ram w p).
Proof.
  cmd_run. change (Z.to_nat 1) with 1%nat.
  cbn [readRange_loop]. cmd_run. rewrite Z.add_0_r.
  repeat split.
Qed.

(** X8. Write-range of one byte is write-byte of [data[0]]: the two leave
    the same world behind. *)
Theorem writeRange_one_is_writeByte (spip : SPIDriver) (w : World Dev)
  (addr data : Z) :
  snd (EEPROM_writeRange spip addr data 1 w) =
  snd (EEPROM_writeByte spip addr (ram w data) w).
Proof.
  cmd_run. change (Z.to_nat 1) with 1%nat.
  cbn [writeRange_loop]. cmd_run. rewrite Z.add_0_r.
  reflexivity.
Qed.

Lemma poll_next_memory (spip : SPIDriver) (w : World Dev) :
  ram (poll_next spip w) = ram w /\ stores (poll_next spip w) = stores w.
Proof. unfold poll_next. cmd_run. split; reflexivity. Qed.

Lemma wait_memory (spip : SPIDriver) (fuel : nat) :
  forall (w w' : World Dev),
    EEPROM_wait fuel spip w = Some w' ->
    ram w' = ram w /\ stores w' = stores w.
Proof.
  induction fuel as [| fuel IH]; intros w w' H; [discriminate |].
  rewrite wait_S in H.
  destruct (rdy_set (nth_status 0 spip w)).
  - destruct (IH _ _ H) as [Hr Hs].
    destruct (poll_next_memory spip w) as [Hr' Hs'].
    split; congruence.
  - injection H as <-. cmd_run. split; reflexivity.
Qed.

(** X9. Only read-range writes to the caller's memory: bus start and stop,
    enable-write, disable-write, read-status, write-status, read-byte and
    write-byte store nothing and leave the memory as it was, and so does
    [EEPROM_wait] when it returns. *)
Theorem commands_keep_caller_memory (spip : SPIDriver) (pConfig : SPIConfig)
  (w : World Dev) (addr cmd v : Z) :
  let kept (w' : World Dev) := ram w' = ram w /\ stores w' = stores w in
  kept (snd (EEPROM_startSpi spip pConfig w)) /\
  kept (snd (EEPROM_stopSpi spip w)) /\
  kept (snd (EEPROM_enableWrite spip w)) /\
  kept (snd (EEPROM_disableWrite spip w)) /\
  kept (snd (EEPROM_readStatusReg spip w)) /\
  kept (snd (EEPROM_writeStatusReg spip cmd w)) /\
  kept (snd (EEPROM_readByte spip addr w)) /\
  kept (snd (EEPROM_writeByte spip addr v w)) /\
  (forall fuel w', EEPROM_wait fuel spip w = Some w' -> kept w').
Proof.
  cbv zeta.
  repeat (split; [cmd_run; split; reflexivity |]).
  intros fuel w'. apply wait_memory.
Qed.


(** *** Frames on the bus *)

Lemma bus_ok_app (t u : list event) :
  forall l, bus_ok l (t ++ u) = bus_ok l t && bus_ok (fold_left cs_step t l) u.
Proof.
  induction t as [| e t IH]; intros l; [reflexivity |].
  cbn [app bus_ok fold_left]. rewrite IH. now rewrite andb_assoc.
Qed.

Lemma fold_frame (xs : list (Z * Z)) (l : option bool) :
  fold_left cs_step (frame xs) l = Some true.
Proof.
  unfold frame. cbn [fold_left].
  rewrite fold_left_app, cs_step_exchanges.
  cbn. now rewrite !Z.eqb_refl.
Qed.

Lemma bus_ok_exchanges (xs : list (Z * Z)) (u : list event) :
  bus_ok (Some false) (map (fun x => Exchange (fst x) (snd x)) xs ++ u) =
  bus_ok (Some false) u.
Proof. induction xs as [| x xs IH]; [reflexivity | exact IH]. Qed.

Lemma bus_ok_frame (xs : list (Z * Z)) (l : option bool) :
  cs_low l = false -> bus_ok l (frame xs) = true.
Proof.
  intros Hl. unfold frame, CS_assert, CS_deassert.
  cbn [bus_ok cs_step]. rewrite !Z.eqb_refl. cbn [andb].
  rewrite Hl, bus_ok_exchanges. cbn. now rewrite !Z.eqb_refl.
Qed.

Lemma bus_ok_poll_trace (rs : list (Z * Z)) :
  forall l, cs_low l = false -> bus_ok l (poll_trace rs) = true.
Proof.
  induction rs as [| r rs IH]; intros l Hl; [reflexivity |].
  cbn [poll_trace]. rewrite bus_ok_app, bus_ok_frame, fold_frame by exact Hl.
  destruct rs as [| r' rs]; [reflexivity |].
  cbn [bus_ok cs_step cs_low negb andb]. apply IH. reflexivity.
Qed.

Lemma bus_after_frame (t : list event) (xs : list (Z * Z)) :
  bus_ok None t = true ->
  cs_low (cs_level t) = false ->
  bus_ok None (t ++ frame xs) = true /\ cs_low (cs_level (t ++ frame xs)) = false.
Proof.
  intros Hok Hl. split.
  - rewrite bus_ok_app, Hok. apply bus_ok_frame. exact Hl.
  - now rewrite cs_level_frame.
Qed.

(** X11. The bus is used in frames, and stays so: on a log in which every
    exchange happened with chip-select low, every delay and bus start or stop
    with chip-select not low, and chip-select was never cleared twice in a
    row or set without having been cleared, and which ends with chip-select
    not low, each command of the driver, and [EEPROM_wait] when it returns,
    adds calls that keep all of this true. *)
Theorem bus_discipline (spip : SPIDriver) (pConfig : SPIConfig)
  (w : World Dev) (addr cmd v startAddr data : Z) (N : nat) :
  bus_ok None (log w) = true ->
  cs_low (cs_level (log w)) = false ->
  let kept (w' : World Dev) :=
    bus_ok None (log w') = true /\ cs_low (cs_level (log w')) = false in
  kept (snd (EEPROM_startSpi spip pConfig w)) /\
  kept (snd (EEPROM_stopSpi spip w)) /\
  kept (snd (EEPROM_enableWrite spip w)) /\
  kept (snd (EEPROM_disableWrite spip w)) /\
  kept (snd (EEPROM_readStatusReg spip w)) /\
  kept (snd (EEPROM_writeStatusReg spip cmd w)) /\
  kept (snd (EEPROM_readByte spip addr w)) /\
  kept (snd (EEPROM_writeByte spip addr v w)) /\
  kept (snd (EEPROM_readRange spip startAddr data (Z.of_nat N) w)) /\
  kept (snd (EEPROM_writeRange spip startAddr data (Z.of_nat N) w)) /\
  (forall fuel w', EEPROM_wait fuel spip w = Some w' -> kept w').
Proof.
  intros Hok Hl. cbv zeta.
  assert (Hone : forall e,
             (e = SpiStart \/ e = SpiStop) ->
             bus_ok None (log w ++ [e]) = true /\
             cs_low (cs_level (log w ++ [e])) = false).
  { intros e He. unfold cs_level in *. rewrite bus_ok_app, fold_left_app, Hok.
    destruct He; subst e; cbn; rewrite Hl; split; reflexivity. }
  split; [apply Hone; now left |]. split; [apply Hone; now right |].
  split; [destruct (enableWrite_log spip w) as (r & H);
          rewrite H; now apply bus_after_frame |].
  split; [destruct (disableWrite_log spip w) as (r & H);
          rewrite H; now apply bus_after_frame |].
  split; [destruct (readStatusReg_log spip w) as (r0 & r1 & H & _);
          rewrite H; now apply bus_after_frame |].
  split; [destruct (writeStatusReg_log spip cmd w) as (r0 & r1 & H);
          rewrite H; now apply bus_after_frame |].
  split; [destruct (readByte_log spip addr w) as (r0 & r1 & r2 & r3 & H & _);
          rewrite H; now apply bus_after_frame |].
  split; [destruct (writeByte_log spip addr v w) as (r0 & r1 & r2 & r3 & H);
          rewrite H; now apply bus_after_frame |].
  split; [destruct (readRange_spec spip startAddr data N w)
            as (r0 & r1 & r2 & rs & _ & H & _);
          rewrite H; now apply bus_after_frame |].
  split; [destruct (writeRange_spec spip startAddr data N w)
            as (r0 & r1 & r2 & rs & _ & H & _);
          rewrite H; now apply bus_after_frame |].
  intros fuel w' Hw.
  destruct (wait_returns_inv spip fuel w w' Hw)
    as (k & rs & _ & Hlen & _ & _ & _ & Hlog & _).
  rewrite Hlog. split.
  - rewrite bus_ok_app, Hok. apply bus_ok_poll_trace. exact Hl.
  - rewrite poll_trace_cs_level; [reflexivity | destruct rs; discriminate].
Qed.

(** *** The poller's delays *)

Lemma delay_total_frame (xs : list (Z * Z)) (u : list event) :
  delay_total (frame xs ++ u) = delay_total u.
Proof.
  unfold frame, delay_total. cbn [app fold_right]. rewrite <- app_assoc.
  induction xs as [| x xs IH]; [reflexivity | exact IH].
Qed.

Lemma delay_total_poll_trace (rs : list (Z * Z)) :
  rs <> [] -> delay_total (poll_trace rs) = Z.of_nat (length rs) - 1.
Proof.
  induction rs as [| r rs IH]; intros Hne; [contradiction |].
  cbn [poll_trace]. rewrite delay_total_frame.
  destruct rs as [| r' rs]; [reflexivity |].
  change (delay_total (Delay 1 :: poll_trace (r' :: rs)))
    with (1 + delay_total (poll_trace (r' :: rs))).
  rewrite IH by discriminate. cbn [length]. lia.
Qed.

(** X12. [EEPROM_wait] sleeps once between two status reads and not after
    the last: when it returns, the microseconds it asked of the delay are
    one less than the status reads it made, so none on a device that is
    ready at once. *)
Theorem wait_sleeps_between_reads (spip : SPIDriver) (fuel : nat)
  (w w' : World Dev) :
  EEPROM_wait fuel spip w = Some w' ->
  delay_total (added (log w) (log w')) =
    Z.of_nat (transactions (added (log w) (log w'))) - 1 /\
  (rdy_set (nth_status 0 spip w) = false ->
   delay_total (added (log w) (log w')) = 0).
Proof.
  intros Hw.
  destruct (wait_returns_inv spip fuel w w' Hw)
    as (k & rs & _ & Hlen & Hset & _ & _ & Hlog & _).
  rewrite Hlog, added_app, poll_trace_transactions.
  rewrite delay_total_poll_trace by (destruct rs; discriminate).
  split; [reflexivity |].
  intros Hclr. destruct k as [| k].
  - rewrite Hlen. reflexivity.
  - rewrite (Hset 0%nat) in Hclr by lia. discriminate.
Qed.

(** *** What goes out *)

Lemma map_fst_combine {A B : Type} (l : list A) :
  forall (l' : list B), length l' = length l -> map fst (combine l l') = l.
Proof.
  induction l as [| a l IH]; intros [| b l'] H; try discriminate;
    [reflexivity |].
  cbn. f_equal. apply IH. cbn in H. lia.
Qed.

Lemma forallb_map_seq (f : nat -> Z) (n : nat) :
  forallb is_byte (map f (seq 0 n)) = forallb (fun j => is_byte (f j)) (seq 0 n).
Proof.
  generalize 0%nat.
  induction n as [| n IH]; intros k; [reflexivity |].
  cbn [seq map forallb]. now rewrite IH.
Qed.

Lemma writeRange_sent (spip : SPIDriver) (startAddr data : Z) (N : nat)
  (w : World Dev) :
  sent (added (log w)
          (log (snd (EEPROM_writeRange spip startAddr data (Z.of_nat N) w)))) =
  [EEPROM_SPI_WRITE_DATA; addr_high startAddr; addr_low startAddr] ++
  map (fun j => ram w (data + Z.of_nat j)) (seq 0 N).
Proof.
  destruct (writeRange_spec spip startAddr data N w)
    as (r0 & r1 & r2 & rs & Hlen & Hlog & _).
  rewrite Hlog, added_app, sent_frame. cbn [map fst app].
  rewrite map_fst_combine by (now rewrite length_map, length_seq).
  reflexivity.
Qed.

(** X13. The driver hands the HAL 8-bit frames only: with a 16-bit address
    and byte values for the status value, the data byte and the buffer
    entries [data[0..N-1]], every frame a command sends lies in [0, 256). *)
Theorem sent_frames_are_bytes (spip : SPIDriver) (w : World Dev)
  (addr cmd v data : Z) (N : nat) :
  0 <= addr < 2 ^ 16 ->
  is_byte cmd = true ->
  is_byte v = true ->
  forallb (fun j => is_byte (ram w (data + Z.of_nat j))) (seq 0 N) = true ->
  let fits (w' : World Dev) :=
    forallb is_byte (sent (added (log w) (log w'))) = true in
  fits (snd (EEPROM_enableWrite spip w)) /\
  fits (snd (EEPROM_disableWrite spip w)) /\
  fits (snd (EEPROM_readStatusReg spip w)) /\
  fits (snd (EEPROM_writeStatusReg spip cmd w)) /\
  fits (snd (EEPROM_readByte spip addr w)) /\
  fits (snd (EEPROM_writeByte spip addr v w)) /\
  fits (snd (EEPROM_readRange spip addr data (Z.of_nat N) w)) /\
  fits (snd (EEPROM_writeRange spip addr data (Z.of_nat N) w)).
Proof.
  intros Ha Hcmd Hv Hbuf. cbv zeta.
  assert (Hhi : is_byte (addr_high addr) = true)
    by (apply is_byte_iff, addr_high_byte; exact Ha).
  assert (Hlo : is_byte (addr_low addr) = true)
    by (apply is_byte_iff, addr_low_byte).
  destruct (enableWrite_log spip w) as (e0 & He).
  destruct (disableWrite_log spip w) as (d0 & Hd).
  destruct (readStatusReg_log spip w) as (s0 & s1 & Hs & _).
  destruct (writeStatusReg_log spip cmd w) as (t0 & t1 & Ht).
  destruct (readByte_log spip addr w) as (r0 & r1 & r2 & r3 & Hr & _).
  destruct (writeByte_log spip addr v w) as (u0 & u1 & u2 & u3 & Hu).
  destruct (readRange_spec spip addr data N w)
    as (q0 & q1 & q2 & rs & _ & Hq & _).
  rewrite He, Hd, Hs, Ht, Hr, Hu, Hq, writeRange_sent, !added_app, !sent_frame.
  cbn [map fst forallb app]. rewrite Hcmd, Hv, Hhi, Hlo. cbn [andb].
  repeat (split; [reflexivity |]).
  split.
  - rewrite map_map. cbn [fst].
    apply forallb_forall. intros x Hx. apply in_map_iff in Hx.
    destruct Hx as (r & <- & _). reflexivity.
  - rewrite forallb_map_seq. exact Hbuf.
Qed.

(** X14. Copying through the buffer: after a read-range of [N] bytes into
    [data], a write-range of [N] bytes from [data] sends the opcode, the two
    address bytes and then, in order, the bytes the read received, each as
    [uint8_t]. *)
Theorem readRange_then_writeRange (spip : SPIDriver) (w : World Dev)
  (from to data : Z) (N : nat) :
  sent (added (log (snd (EEPROM_readRange spip from data (Z.of_nat N) w)))
          (log (snd (EEPROM_writeRange spip to data (Z.of_nat N)
                       (snd (EEPROM_readRange spip from data (Z.of_nat N) w)))))) =
  [0x02; addr_high to; addr_low to] ++
  map to_uint8
    (skipn 3 (received
                (added (log w)
                   (log (snd (EEPROM_readRange spip from data (Z.of_nat N) w)))))).
Proof.
  rewrite writeRange_sent.
  destruct (readRange_spec spip from data N w)
    as (r0 & r1 & r2 & rs & Hlen & Hlog & _ & Hin & _).
  rewrite Hlog, added_app, received_frame.
  cbn [map snd skipn]. rewrite !map_map. cbn [snd].
  f_equal. subst N. apply map_seq_nth. exact Hin.
Qed.

(** *** What the range commands depend on *)

Lemma writeRange_loop_depends (spip : SPIDriver) (data : Z) (n : nat) :
  forall (i : Z) (w1 w2 : World Dev),
    dev w1 = dev w2 ->
    buffer_bytes (ram w1) data i n = buffer_bytes (ram w2) data i n ->
    exists t,
      log (snd (writeRange_loop spip data i n w1)) = log w1 ++ t /\
      log (snd (writeRange_loop spip data i n w2)) = log w2 ++ t /\
      dev (snd (writeRange_loop spip data i n w1)) =
      dev (snd (writeRange_loop spip data i n w2)).
Proof.
  induction n as [| n IH]; intros i w1 w2 Hdev Hbuf.
  - exists []. cbn. rewrite !app_nil_r. repeat split. exact Hdev.
  - rewrite !writeRange_loop_S. cbv zeta.
    cbn [buffer_bytes] in Hbuf. injection Hbuf as Hb Hrest.
    rewrite <- Hdev, <- Hb.
    set (x := spi_lld_polled_exchange spip (ram w1 (data + i)) (dev w1)).
    match goal with
    | |- context [writeRange_loop spip data (i + 1) n
                    (mkWorld ?d (ram w1) ?s ?l)] =>
        set (wa := mkWorld d (ram w1) s l)
    end.
    match goal with
    | |- context [writeRange_loop spip data (i + 1) n
                    (mkWorld ?d (ram w2) ?s ?l)] =>
        set (wb := mkWorld d (ram w2) s l)
    end.
    destruct (IH (i + 1) wa wb) as (t & Ha & Hb' & Hd);
      [reflexivity | exact Hrest |].
    exists (Exchange (ram w1 (data + i)) (snd x) :: t).
    rewrite Ha, Hb'. unfold wa, wb. cbn [log].
    rewrite <- !app_assoc. repeat split. exact Hd.
Qed.

(** X15. Write-range reads the caller's memory at [data[0..N-1]] and
    nowhere else: started on the same device with the same [N] bytes in the
    buffer, it makes the same calls to the HAL and leaves the device in the
    same state, whatever the rest of the memory holds. *)
Theorem writeRange_reads_only_buffer (spip : SPIDriver) (w1 w2 : World Dev)
  (startAddr data : Z) (N : nat) :
  dev w1 = dev w2 ->
  map (fun j => ram w1 (data + Z.of_nat j)) (seq 0 N) =
  map (fun j => ram w2 (data + Z.of_nat j)) (seq 0 N) ->
  added (log w1)
    (log (snd (EEPROM_writeRange spip startAddr data (Z.of_nat N) w1))) =
  added (log w2)
    (log (snd (EEPROM_writeRange spip startAddr data (Z.of_nat N) w2))) /\
  dev (snd (EEPROM_writeRange spip startAddr data (Z.of_nat N) w1)) =
  dev (snd (EEPROM_writeRange spip startAddr data (Z.of_nat N) w2)).
Proof.
  intros Hdev Hbuf.
  assert (Hbytes : buffer_bytes (ram w1) data 0 N = buffer_bytes (ram w2) data 0 N).
  { rewrite !buffer_bytes_seq.
    erewrite (map_ext (fun j => ram w1 (data + 0 + Z.of_nat j)))
      by (intros j; rewrite Z.add_0_r; reflexivity).
    erewrite (map_ext (fun j => ram w2 (data + 0 + Z.of_nat j)))
      by (intros j; rewrite Z.add_0_r; reflexivity).
    exact Hbuf. }
  cmd_run. rewrite Nat2Z.id, <- Hdev.
  set (x0 := spi_lld_polled_exchange spip EEPROM_SPI_WRITE_DATA _).
  set (x1 := spi_lld_polled_exchange spip (addr_high startAddr) _).
  set (x2 := spi_lld_polled_exchange spip (addr_low startAddr) _).
  match goal with
  | |- context [writeRange_loop spip data 0 N (mkWorld ?d (ram w1) ?s ?l)] =>
      set (wa := mkWorld d (ram w1) s l)
  end.
  match goal with
  | |- context [writeRange_loop spip data 0 N (mkWorld ?d (ram w2) ?s ?l)] =>
      set (wb := mkWorld d (ram w2) s l)
  end.
  destruct (writeRange_loop_depends spip data N 0 wa wb)
    as (t & Ha & Hb & Hd); [reflexivity | exact Hbytes |].
  destruct (writeRange_loop spip data 0 N wa) as [ua wa'].
  destruct (writeRange_loop spip data 0 N wb) as [ub wb'].
  cbn [fst snd dev log] in Ha, Hb, Hd |- *.
  rewrite Ha, Hb, Hd. unfold wa, wb. cbn [log].
  rewrite <- !app_assoc, !added_app. split; reflexivity.
Qed.

Lemma readRange_loop_depends (spip : SPIDriver) (data : Z) (n : nat) :
  forall (i : Z) (w1 w2 : World Dev),
    dev w1 = dev w2 ->
    exists rs,
      log (snd (readRange_loop spip data i n w1)) =
        log w1 ++ map (fun r => Exchange 0 r) rs /\
      log (snd (readRange_loop spip data i n w2)) =
        log w2 ++ map (fun r => Exchange 0 r) rs /\
      stores (snd (readRange_loop spip data i n w1)) =
        stores w1 ++ buffer_stores data i rs /\
      stores (snd (readRange_loop spip data i n w2)) =
        stores w2 ++ buffer_stores data i rs /\
      dev (snd (readRange_loop spip data i n w1)) =
      dev (snd (readRange_loop spip data i n w2)) /\
      buffer_bytes (ram (snd (readRange_loop spip data i n w1))) data i n =
      buffer_bytes (ram (snd (readRange_loop spip data i n w2))) data i n.
Proof.
  induction n as [| n IH]; intros i w1 w2 Hdev.
  - exists []. cbn. rewrite !app_nil_r. repeat split. exact Hdev.
  - cbn [buffer_bytes].
    rewrite !readRange_loop_S. cbv zeta. rewrite <- Hdev.
    set (x := spi_lld_polled_exchange spip 0 (dev w1)).
    match goal with
    | |- context [readRange_loop spip data (i + 1) n
                    (mkWorld ?d ?m (stores w1 ++ ?s) ?l)] =>
        set (wa := mkWorld d m (stores w1 ++ s) l)
    end.
    match goal with
    | |- context [readRange_loop spip data (i + 1) n
                    (mkWorld ?d ?m (stores w2 ++ ?s) ?l)] =>
        set (wb := mkWorld d m (stores w2 ++ s) l)
    end.
    destruct (IH (i + 1) wa wb) as (rs & Ha & Hb & Hsa & Hsb & Hd & Hbuf);
      [reflexivity |].
    destruct (readRange_loop_spec spip data n (i + 1) wa)
      as (ra & _ & _ & _ & _ & Oa).
    destruct (readRange_loop_spec spip data n (i + 1) wb)
      as (rb & _ & _ & _ & _ & Ob).
    exists (snd x :: rs).
    rewrite Ha, Hb, Hsa, Hsb. unfold wa, wb. cbn [log stores map buffer_stores].
    rewrite <- !app_assoc.
    repeat (split; [reflexivity |]).
    split; [exact Hd |].
    f_equal; [| exact Hbuf].
    rewrite Oa, Ob by lia. unfold wa, wb. cbn [ram].
    rewrite Z.eqb_refl. reflexivity.
Qed.

(** X16. Read-range does not depend on the caller's memory: started on the
    same device, it makes the same calls to the HAL, leaves the device in the
    same state, stores the same values at the same places and leaves the
    same [N] bytes in the buffer, whatever the memory held before. *)
Theorem readRange_ignores_memory (spip : SPIDriver) (w1 w2 : World Dev)
  (startAddr data : Z) (N : nat) :
  dev w1 = dev w2 ->
  added (log w1)
    (log (snd (EEPROM_readRange spip startAddr data (Z.of_nat N) w1))) =
  added (log w2)
    (log (snd (EEPROM_readRange spip startAddr data (Z.of_nat N) w2))) /\
  dev (snd (EEPROM_readRange spip startAddr data (Z.of_nat N) w1)) =
  dev (snd (EEPROM_readRange spip startAddr data (Z.of_nat N) w2)) /\
  added (stores w1)
    (stores (snd (EEPROM_readRange spip startAddr data (Z.of_nat N) w1))) =
  added (stores w2)
    (stores (snd (EEPROM_readRange spip startAddr data (Z.of_nat N) w2))) /\
  map (fun j => ram (snd (EEPROM_readRange spip startAddr data (Z.of_nat N) w1))
                    (data + Z.of_nat j)) (seq 0 N) =
  map (fun j => ram (snd (EEPROM_readRange spip startAddr data (Z.of_nat N) w2))
                    (data + Z.of_nat j)) (seq 0 N).
Proof.
  intros Hdev.
  cmd_run. rewrite Nat2Z.id, <- Hdev.
  set (x0 := spi_lld_polled_exchange spip EEPROM_SPI_READ_DATA _).
  set (x1 := spi_lld_polled_exchange spip (addr_high startAddr) _).
  set (x2 := spi_lld_polled_exchange spip (addr_low startAddr) _).
  match goal with
  | |- context [readRange_loop spip data 0 N (mkWorld ?d (ram w1) ?s ?l)] =>
      set (wa := mkWorld d (ram w1) s l)
  end.
  match goal with
  | |- context [readRange_loop spip data 0 N (mkWorld ?d (ram w2) ?s ?l)] =>
      set (wb := mkWorld d (ram w2) s l)
  end.
  destruct (readRange_loop_depends spip data N 0 wa wb)
    as (rs & Ha & Hb & Hsa & Hsb & Hd & Hbuf); [reflexivity |].
  rewrite !buffer_bytes_seq in Hbuf.
  destruct (readRange_loop spip data 0 N wa) as [ua wa'].
  destruct (readRange_loop spip data 0 N wb) as [ub wb'].
  cbn [fst snd dev log stores ram] in Ha, Hb, Hsa, Hsb, Hd, Hbuf |- *.
  rewrite Ha, Hb, Hsa, Hsb, Hd. unfold wa, wb. cbn [log stores].
  rewrite <- !app_assoc, !added_app.
  repeat (split; [reflexivity |]).
  erewrite (map_ext (fun j => ram wa' (data + Z.of_nat j)))
    by (intros j; rewrite <- (Z.add_0_r data) at 1; reflexivity).
  erewrite (map_ext (fun j => ram wb' (data + Z.of_nat j)))
    by (intros j; rewrite <- (Z.add_0_r data) at 1; reflexivity).
  exact Hbuf.
Qed.

End MoreDriverFacts.

(** ** On the devices *)

Lemma commands_keep_caller_memory_witness :
  match EEPROM_wait (hal := Chip.chip_hal) 5 tt
          (Chip.world (Chip.writing Chip.blank 2)) with
  | Some w' =>
      ram w' = ram (Chip.world (Chip.writing Chip.blank 2)) /\
      stores w' = stores (Chip.world (Chip.writing Chip.blank 2))
  | None => False
  end.
Proof.
  destruct (EEPROM_wait (hal := Chip.chip_hal) 5 tt
              (Chip.world (Chip.writing Chip.blank 2))) as [w' |] eqn:E.
  - pose proof (commands_keep_caller_memory (hal := Chip.chip_hal) tt tt
                  (Chip.world (Chip.writing Chip.blank 2)) 0 0 0) as H.
    cbv zeta in H.
    destruct H as (_ & _ & _ & _ & _ & _ & _ & _ & H).
    exact (H 5%nat w' E).
  - vm_compute in E. discriminate.
Defined.


Lemma bus_discipline_witness :
  bus_ok (hal := Chip.chip_hal) None
    (log (snd (EEPROM_readRange (hal := Chip.chip_hal) tt 0x0123 0 (Z.of_nat 4)
                 (Chip.world (Chip.fresh Chip.blank 5))))) = true /\
  cs_low (cs_level (hal := Chip.chip_hal)
            (log (snd (EEPROM_readRange (hal := Chip.chip_hal) tt 0x0123 0
                         (Z.of_nat 4)
                         (Chip.world (Chip.fresh Chip.blank 5)))))) = false.
Proof.
  pose proof (bus_discipline (hal := Chip.chip_hal) tt tt
                (Chip.world (Chip.fresh Chip.blank 5)) 0 0 0 0x0123 0 4
                eq_refl eq_refl) as H.
  cbv zeta in H.
  destruct H as (_ & _ & _ & _ & _ & _ & _ & _ & H & _).
  exact H.
Defined.

Lemma wait_sleeps_between_reads_witness :
  match EEPROM_wait (hal := Chip.chip_hal) 10 tt
          (Chip.world (Chip.writing Chip.blank 3)) with
  | Some w' =>
      delay_total (added (log (Chip.world (Chip.writing Chip.blank 3))) (log w')) =
      Z.of_nat (transactions
                  (added (log (Chip.world (Chip.writing Chip.blank 3))) (log w')))
      - 1
  | None => False
  end.
Proof.
  destruct (EEPROM_wait (hal := Chip.chip_hal) 10 tt
              (Chip.world (Chip.writing Chip.blank 3))) as [w' |] eqn:E.
  - exact (proj1 (wait_sleeps_between_reads (hal := Chip.chip_hal) tt 10 _ w' E)).
  - vm_compute in E. discriminate.
Defined.

Lemma sent_frames_are_bytes_witness :
  forallb is_byte
    (sent (added (log NoChip.world)
             (log (snd (EEPROM_writeRange (hal := NoChip.nochip_hal) tt 0x0123 0
                          (Z.of_nat 4) NoChip.world))))) = true.
Proof.
  pose proof (sent_frames_are_bytes (hal := NoChip.nochip_hal) tt NoChip.world
                0x0123 0x0C 0xA5 0 4) as H.
  cbv zeta in H.
  destruct H as (_ & _ & _ & _ & _ & _ & _ & H);
    [lia | reflexivity | reflexivity | reflexivity |].
  exact H.
Defined.

Lemma writeRange_reads_only_buffer_witness :
  added []
    (log (snd (EEPROM_writeRange (hal := Chip.chip_hal) tt 0x0123 100 (Z.of_nat 4)
                 (mkWorld (Chip.fresh Chip.blank 5)
                          (fun p => if p <? 104 then p else 0) [] [])))) =
  added []
    (log (snd (EEPROM_writeRange (hal := Chip.chip_hal) tt 0x0123 100 (Z.of_nat 4)
                 (mkWorld (Chip.fresh Chip.blank 5)
                          (fun p => if p <? 104 then p else 1) [] [])))) /\
  dev (snd (EEPROM_writeRange (hal := Chip.chip_hal) tt 0x0123 100 (Z.of_nat 4)
              (mkWorld (Chip.fresh Chip.blank 5)
                       (fun p => if p <? 104 then p else 0) [] []))) =
  dev (snd (EEPROM_writeRange (hal := Chip.chip_hal) tt 0x0123 100 (Z.of_nat 4)
              (mkWorld (Chip.fresh Chip.blank 5)
                       (fun p => if p <? 104 then p else 1) [] []))).
Proof.
  apply (writeRange_reads_only_buffer (hal := Chip.chip_hal) tt
           (mkWorld (Chip.fresh Chip.blank 5)
                    (fun p => if p <? 104 then p else 0) [] [])
           (mkWorld (Chip.fresh Chip.blank 5)
                    (fun p => if p <? 104 then p else 1) [] [])
           0x0123 100 4).
  - reflexivity.
  - reflexivity.
Defined.

Lemma readRange_ignores_memory_witness :
  map (fun j => ram (snd (EEPROM_readRange (hal := Chip.chip_hal) tt 0x0123 100
                            (Z.of_nat 4)
                            (mkWorld (Chip.fresh Chip.blank 5)
                                     (fun _ => 0) [] [])))
                    (100 + Z.of_nat j)) (seq 0 4) =
  map (fun j => ram (snd (EEPROM_readRange (hal := Chip.chip_hal) tt 0x0123 100
                            (Z.of_nat 4)
                            (mkWorld (Chip.fresh Chip.blank 5)
                                     (fun _ => 1) [(7, 7)] [SpiStart])))
                    (100 + Z.of_nat j)) (seq 0 4).
Proof.
  apply (readRange_ignores_memory (hal := Chip.chip_hal) tt
           (mkWorld (Chip.fresh Chip.blank 5) (fun _ => 0) [] [])
           (mkWorld (Chip.fresh Chip.blank 5) (fun _ => 1) [(7, 7)] [SpiStart])
           0x0123 100 4).
  reflexivity.
Defined.
